(** * Webhook receiver (main.go): a shallow embedding and its properties

    The program is one Go file: two HTTP handlers, [HealthCheck] and
    [HandleDynamicAPI], and three struct types that drive encoding/json.
    The handlers are embedded by explicit state passing over the logger
    and the response writer.  The parts of the Go standard library that
    decide what the handlers do (json.Decoder.Decode, json.Unmarshal on
    the three struct types, the response writer) are embedded next to
    them, following the library's documented behaviour.

    Part I is the program, Part II the vocabulary of its properties,
    Part III the properties of the contract, Part IV what the webhook
    handler does on every request.

    What the embedding leaves out: a request body is the sequence of its
    bytes (reading it does not fail half way); an encoded document is
    the map it is encoded from, not its bytes; Go's int is 64 bits wide;
    the conversion of numbers to float64 and the reading of times are
    taken from the platform.  The function main, which registers the two
    handlers with the default mux and starts the server, is not
    embedded: requests are given to a handler directly. *)

From Stdlib Require Import ZArith Ascii String List Bool Lia.
From stdpp Require Import base option list gmap strings.

Local Open Scope Z_scope.
#[local] Set Warnings "-register-all,-abstract-large-number".

(** * Part I: the program *)

(** ** Bytes *)

Module Bytes.

(** A Go [byte] as an 8-bit character; [code] is its numeric value. *)
Definition code (c : ascii) : Z := Z.of_N (N_of_ascii c).

Definition byte (z : Z) : ascii := ascii_of_N (Z.to_N (z mod 256)).

Definition inRange (lo hi : Z) (c : ascii) : bool :=
  (lo <=? code c) && (code c <=? hi).

Definition isDigit (c : ascii) : bool := inRange 48 57 c.
Definition isDigit19 (c : ascii) : bool := inRange 49 57 c.

Definition isHex (c : ascii) : bool :=
  inRange 48 57 c || inRange 97 102 c || inRange 65 70 c.

(** scanner.go, isSpace: space, tab, carriage return, line feed. *)
Definition isSpace (c : ascii) : bool :=
  (code c =? 32) || (code c =? 9) || (code c =? 13) || (code c =? 10).

Fixpoint allSpace (s : string) : bool :=
  match s with
  | EmptyString => true
  | String c r => isSpace c && allSpace r
  end.

Fixpoint skipSpace (s : string) : string :=
  match s with
  | String c r => if isSpace c then skipSpace r else s
  | EmptyString => s
  end.

(** The double quote, byte 34. *)
Definition dquote : ascii := "034".

(** Value of a hexadecimal digit (0 for any other byte). *)
Definition hexVal (c : ascii) : Z :=
  if inRange 48 57 c then code c - 48
  else if inRange 97 102 c then code c - 87
  else if inRange 65 70 c then code c - 55
  else 0.

End Bytes.
Import Bytes.

(** ** Scanned JSON values

    A [json] is the syntax tree of one JSON value as the scanner of
    encoding/json accepts it.  It keeps what json.Unmarshal can observe
    of the raw bytes: number literals as written, string literals as
    their sequence of raw items (so that both the unquoted string and
    the raw bytes can be read back), object members in order and with
    duplicates.  Insignificant whitespace is dropped. *)

Inductive strItem : Type :=
  | SByte (c : ascii)                 (* a byte copied as written *)
  | SEsc (c : ascii)                  (* backslash and one of the eight escape letters *)
  | SUni (h1 h2 h3 h4 : ascii).       (* backslash, u, four hex digits *)

Definition jstring : Type := list strItem.

Inductive json : Type :=
  | JNull
  | JBool (b : bool)
  | JNum (lit : string)
  | JStr (s : jstring)
  | JArr (elems : list json)
  | JObj (members : list (jstring * json)).

(** The raw bytes of a string literal, between its quotes. *)
Fixpoint rawBytes (s : jstring) : string :=
  match s with
  | [] => EmptyString
  | SByte c :: r => String c (rawBytes r)
  | SEsc c :: r => String "\" (String c (rawBytes r))
  | SUni a b c d :: r =>
      String "\" (String "u" (String a (String b (String c (String d (rawBytes r))))))
  end.

(** A string with no escapes, as a literal. *)
Fixpoint plain (s : string) : jstring :=
  match s with
  | EmptyString => []
  | String c r => SByte c :: plain r
  end.

(** ** The scanner (scanner.go) as a recursive-descent reader

    [scanValue] reads one JSON value from the front of its input, after
    optional whitespace, and returns it with the unread rest.  It accepts
    what the byte-by-byte scanner of encoding/json accepts: the JSON
    grammar, tokens read greedily, nesting limited to [maxNestingDepth]. *)

Module Scanner.

Definition maxNestingDepth : nat := 10000.

(** stateInString, stateInStringEsc, stateInStringEscU...: the items of
    a string literal up to its closing quote.  Control bytes are refused;
    an escape is one of the eight letters or u with four hex digits. *)
Fixpoint scanString (s : string) : option (jstring * string) :=
  match s with
  | EmptyString => None
  | String c r =>
      if (c =? dquote)%char then Some ([], r)
      else if (c =? "\")%char then
        match r with
        | String e r1 =>
            if (e =? "u")%char then
              match r1 with
              | String h1 (String h2 (String h3 (String h4 r2))) =>
                  if isHex h1 && isHex h2 && isHex h3 && isHex h4 then
                    match scanString r2 with
                    | Some (items, rest) => Some (SUni h1 h2 h3 h4 :: items, rest)
                    | None => None
                    end
                  else None
              | _ => None
              end
            else if existsb (Ascii.eqb e)
                      ["b"; "f"; "n"; "r"; "t"; "\"; "/"; dquote]%char then
              match scanString r1 with
              | Some (items, rest) => Some (SEsc e :: items, rest)
              | None => None
              end
            else None
        | EmptyString => None
        end
      else if code c <? 32 then None
      else
        match scanString r with
        | Some (items, rest) => Some (SByte c :: items, rest)
        | None => None
        end
  end.

(** The longest run of decimal digits at the front. *)
Fixpoint scanDigits (s : string) : string * string :=
  match s with
  | String c r =>
      if isDigit c then let '(ds, rest) := scanDigits r in (String c ds, rest)
      else (EmptyString, s)
  | EmptyString => (EmptyString, s)
  end.

(** stateDot, stateDot0: an optional fraction; a dot needs a digit. *)
Definition scanFrac (s : string) : option (string * string) :=
  match s with
  | String c r =>
      if (c =? ".")%char then
        match scanDigits r with
        | (EmptyString, _) => None
        | (ds, rest) => Some (String c ds, rest)
        end
      else Some (EmptyString, s)
  | EmptyString => Some (EmptyString, s)
  end.

(** stateE, stateESign, stateE0: an optional exponent. *)
Definition scanExp (s : string) : option (string * string) :=
  match s with
  | String c r =>
      if (c =? "e")%char || (c =? "E")%char then
        let '(sign, r1) :=
          match r with
          | String g r' =>
              if (g =? "+")%char || (g =? "-")%char
              then (String g EmptyString, r') else (EmptyString, r)
          | EmptyString => (EmptyString, r)
          end in
        match scanDigits r1 with
        | (EmptyString, _) => None
        | (ds, rest) => Some (String c (sign +:+ ds), rest)
        end
      else Some (EmptyString, s)
  | EmptyString => Some (EmptyString, s)
  end.

(** state0, state1: the integer part (after an optional minus sign), then
    fraction and exponent.  A leading 0 ends the integer part. *)
Definition scanUnsigned (s : string) : option (string * string) :=
  match s with
  | String c r =>
      let ip :=
        if (c =? "0")%char then Some (String c EmptyString, r)
        else if isDigit19 c then
          let '(ds, rest) := scanDigits r in Some (String c ds, rest)
        else None in
      match ip with
      | Some (i, r1) =>
          match scanFrac r1 with
          | Some (f, r2) =>
              match scanExp r2 with
              | Some (e, r3) => Some (i +:+ f +:+ e, r3)
              | None => None
              end
          | None => None
          end
      | None => None
      end
  | EmptyString => None
  end.

(** stateNeg and the above. *)
Definition scanNumber (s : string) : option (string * string) :=
  match s with
  | String c r =>
      if (c =? "-")%char then
        match scanUnsigned r with
        | Some (n, rest) => Some (String c n, rest)
        | None => None
        end
      else scanUnsigned s
  | EmptyString => None
  end.

(** stateT..., stateF..., stateN...: a literal name, byte for byte. *)
Fixpoint stripPrefix (p s : string) : option string :=
  match p, s with
  | EmptyString, _ => Some s
  | String a p', String b s' => if (a =? b)%char then stripPrefix p' s' else None
  | String _ _, EmptyString => None
  end.

(** The byte [c] after optional whitespace; gives what follows it. *)
Definition expect (c : ascii) (s : string) : option string :=
  match skipSpace s with
  | String c' r => if (c' =? c)%char then Some r else None
  | EmptyString => None
  end.

(** One value.  [depth] counts the open arrays and objects around it
    (pushParseState fails beyond [maxNestingDepth]); [fuel] bounds the
    recursion and is taken from the length of the input by [readValue]. *)
Fixpoint scanValue (fuel : nat) (depth : nat) (s : string) : option (json * string) :=
  match fuel with
  | O => None
  | S fuel =>
      match skipSpace s with
      | EmptyString => None
      | String c r =>
          if (c =? "{")%char then
            if (depth <? maxNestingDepth)%nat then
              match expect "}" r with
              | Some r' => Some (JObj [], r')
              | None =>
                  match scanMembers fuel (S depth) r with
                  | Some (ms, rest) => Some (JObj ms, rest)
                  | None => None
                  end
              end
            else None
          else if (c =? "[")%char then
            if (depth <? maxNestingDepth)%nat then
              match expect "]" r with
              | Some r' => Some (JArr [], r')
              | None =>
                  match scanElements fuel (S depth) r with
                  | Some (vs, rest) => Some (JArr vs, rest)
                  | None => None
                  end
              end
            else None
          else if (c =? dquote)%char then
            match scanString r with
            | Some (items, rest) => Some (JStr items, rest)
            | None => None
            end
          else if (c =? "t")%char then
            option_map (pair (JBool true)) (stripPrefix "rue" r)
          else if (c =? "f")%char then
            option_map (pair (JBool false)) (stripPrefix "alse" r)
          else if (c =? "n")%char then
            option_map (pair JNull) (stripPrefix "ull" r)
          else
            match scanNumber (String c r) with
            | Some (lit, rest) => Some (JNum lit, rest)
            | None => None
            end
      end
  end

(** The members of a non-empty object, after its opening brace: a string,
    a colon, a value, then a comma and more members or the closing brace. *)
with scanMembers (fuel : nat) (depth : nat) (s : string)
    : option (list (jstring * json) * string) :=
  match fuel with
  | O => None
  | S fuel =>
      match expect dquote s with
      | Some r =>
          match scanString r with
          | Some (key, r1) =>
              match expect ":" r1 with
              | Some r2 =>
                  match scanValue fuel depth r2 with
                  | Some (v, r3) =>
                      match expect "," r3 with
                      | Some r4 =>
                          match scanMembers fuel depth r4 with
                          | Some (ms, rest) => Some ((key, v) :: ms, rest)
                          | None => None
                          end
                      | None =>
                          match expect "}" r3 with
                          | Some r4 => Some ([(key, v)], r4)
                          | None => None
                          end
                      end
                  | None => None
                  end
              | None => None
              end
          | None => None
          end
      | None => None
      end
  end

(** The elements of a non-empty array, after its opening bracket. *)
with scanElements (fuel : nat) (depth : nat) (s : string)
    : option (list json * string) :=
  match fuel with
  | O => None
  | S fuel =>
      match scanValue fuel depth s with
      | Some (v, r1) =>
          match expect "," r1 with
          | Some r2 =>
              match scanElements fuel depth r2 with
              | Some (vs, rest) => Some (v :: vs, rest)
              | None => None
              end
          | None =>
              match expect "]" r1 with
              | Some r2 => Some ([v], r2)
              | None => None
              end
          end
      | None => None
      end
  end.

(** Enough fuel for any input: every recursive call but the first of an
    array's elements has read at least one more byte. *)
Definition fuelFor (s : string) : nat := S (S (2 * String.length s)).

(** The first value of the input and the unread rest. *)
Definition readValue (s : string) : option (json * string) :=
  scanValue (fuelFor s) 0 s.

(** json.Valid: one value, then only whitespace. *)
Definition valid (s : string) : bool :=
  match readValue s with
  | Some (_, rest) => allSpace rest
  | None => false
  end.

End Scanner.

(** ** Strings: unquoting and name folding (decode.go, fold.go) *)

Module Utf8.

(** unicode.ReplacementChar, U+FFFD, in UTF-8. *)
Definition runeError : string :=
  String (byte 0xEF) (String (byte 0xBF) (String (byte 0xBD) EmptyString)).

(** utf8.EncodeRune (surrogate halves and values past U+10FFFF become
    the replacement character). *)
Definition encodeRune (r : Z) : string :=
  if (r <? 0) || (0x10FFFF <? r) || ((0xD800 <=? r) && (r <=? 0xDFFF)) then runeError
  else if r <=? 0x7F then String (byte r) EmptyString
  else if r <=? 0x7FF then
    String (byte (Z.lor 0xC0 (Z.shiftr r 6)))
      (String (byte (Z.lor 0x80 (Z.land r 0x3F))) EmptyString)
  else if r <=? 0xFFFF then
    String (byte (Z.lor 0xE0 (Z.shiftr r 12)))
      (String (byte (Z.lor 0x80 (Z.land (Z.shiftr r 6) 0x3F)))
         (String (byte (Z.lor 0x80 (Z.land r 0x3F))) EmptyString))
  else
    String (byte (Z.lor 0xF0 (Z.shiftr r 18)))
      (String (byte (Z.lor 0x80 (Z.land (Z.shiftr r 12) 0x3F)))
         (String (byte (Z.lor 0x80 (Z.land (Z.shiftr r 6) 0x3F)))
            (String (byte (Z.lor 0x80 (Z.land r 0x3F))) EmptyString))).

(** utf8.DecodeRune, as far as unquoting needs it: the number of bytes
    of the well-formed encoding that starts with the non-ASCII byte [c]
    and continues in [next], or 0 when there is none (DecodeRune then
    yields RuneError with width 1).  The accepted ranges of the second
    byte exclude overlong forms, surrogates and values past U+10FFFF. *)
Definition runeLen (c : ascii) (next : list ascii) : nat :=
  let cont := inRange 0x80 0xBF in
  if inRange 0xC2 0xDF c then
    match next with
    | b1 :: _ => if cont b1 then 2%nat else 0%nat
    | _ => 0%nat
    end
  else if inRange 0xE0 0xEF c then
    let second :=
      if code c =? 0xE0 then inRange 0xA0 0xBF
      else if code c =? 0xED then inRange 0x80 0x9F
      else cont in
    match next with
    | b1 :: b2 :: _ => if second b1 && cont b2 then 3%nat else 0%nat
    | _ => 0%nat
    end
  else if inRange 0xF0 0xF4 c then
    let second :=
      if code c =? 0xF0 then inRange 0x90 0xBF
      else if code c =? 0xF4 then inRange 0x80 0x8F
      else cont in
    match next with
    | b1 :: b2 :: b3 :: _ => if second b1 && cont b2 && cont b3 then 4%nat else 0%nat
    | _ => 0%nat
    end
  else 0%nat.

End Utf8.

Module Unquote.
Import Utf8.

(** getu4: the value of the four hex digits of a unicode escape. *)
Definition getu4 (h1 h2 h3 h4 : ascii) : Z :=
  ((hexVal h1 * 16 + hexVal h2) * 16 + hexVal h3) * 16 + hexVal h4.

(** The byte an escape letter stands for. *)
Definition escByte (e : ascii) : ascii :=
  if (e =? "b")%char then byte 8
  else if (e =? "f")%char then byte 12
  else if (e =? "n")%char then byte 10
  else if (e =? "r")%char then byte 13
  else if (e =? "t")%char then byte 9
  else e.

(** utf16.IsSurrogate and utf16.DecodeRune. *)
Definition isSurrogate (r : Z) : bool := (0xD800 <=? r) && (r <? 0xE000).

Definition decodeSurrogates (r1 r2 : Z) : option Z :=
  if (0xD800 <=? r1) && (r1 <? 0xDC00) && (0xDC00 <=? r2) && (r2 <? 0xE000)
  then Some (Z.lor (Z.shiftl (r1 - 0xD800) 10) (r2 - 0xDC00) + 0x10000)
  else None.

(** The literal bytes that follow, at most [n] of them. *)
Fixpoint leadBytes (n : nat) (s : jstring) : list ascii :=
  match n, s with
  | S n, SByte c :: r => c :: leadBytes n r
  | _, _ => []
  end.

(** unquoteBytes.  Escapes are replaced by what they stand for, a
    surrogate pair of unicode escapes by the one rune it encodes, a lone
    surrogate and every byte that does not start well-formed UTF-8 by
    the replacement character.  [k] is the number of continuation bytes
    still to copy of a rune whose encoding was just checked. *)
Fixpoint unquoteFrom (k : nat) (s : jstring) : string :=
  match s with
  | [] => EmptyString
  | SByte c :: r =>
      match k with
      | S k' => String c (unquoteFrom k' r)
      | O =>
          if code c <? 0x80 then String c (unquoteFrom 0 r)
          else
            match runeLen c (leadBytes 3 r) with
            | O => runeError +:+ unquoteFrom 0 r
            | S n => String c (unquoteFrom n r)
            end
      end
  | SEsc e :: r => String (escByte e) (unquoteFrom 0 r)
  | SUni h1 h2 h3 h4 :: r =>
      let rr := getu4 h1 h2 h3 h4 in
      if isSurrogate rr then
        match r with
        | SUni g1 g2 g3 g4 :: r' =>
            match decodeSurrogates rr (getu4 g1 g2 g3 g4) with
            | Some dec => encodeRune dec +:+ unquoteFrom 0 r'
            | None => runeError +:+ unquoteFrom 0 r
            end
        | _ => runeError +:+ unquoteFrom 0 r
        end
      else encodeRune rr +:+ unquoteFrom 0 r
  end.

Definition unquote (s : jstring) : string := unquoteFrom 0 s.

End Unquote.
Import Unquote.

Module Fold.

(** foldName: the key under which a member name is looked up when no
    field has exactly that name.  ASCII letters are upper-cased; the two
    runes outside ASCII whose case orbit contains an ASCII letter, U+017F
    (long s) and U+212A (Kelvin sign), become S and K.  Go maps every
    other rune to the least rune of its orbit, which is never ASCII; here
    such bytes are kept, which decides equality with the folded name of a
    field the same way, the declared names being ASCII. *)
Fixpoint foldName (s : string) : string :=
  match s with
  | EmptyString => EmptyString
  | String c r =>
      if inRange 97 122 c then String (byte (code c - 32)) (foldName r)
      else
        match r with
        | String c1 r1 =>
            if (code c =? 0xC5) && (code c1 =? 0xBF) then String "S" (foldName r1)
            else
              match r1 with
              | String c2 r2 =>
                  if (code c =? 0xE2) && (code c1 =? 0x84) && (code c2 =? 0xAA)
                  then String "K" (foldName r2)
                  else String c (foldName r)
              | EmptyString => String c (foldName r)
              end
        | EmptyString => String c EmptyString
        end
  end.

(** A member named [key] is stored in the field tagged [name]: the names
    are equal, or equal after folding. *)
Definition fieldMatch (name : string) (key : jstring) : bool :=
  String.eqb (foldName (unquote key)) (foldName name).

End Fold.
Import Fold.

(** ** Results and the platform *)

(** The errors the handlers can meet.  The handlers only test an error
    against nil and log it, so an error is kept by its origin alone. *)
Inductive error : Type :=
  | DecodeError       (* json.Decoder.Decode: no value could be read *)
  | UnmarshalError    (* json.Unmarshal: the value does not fit the target *)
  | WriteError.       (* the response writer refused the bytes *)

Inductive result (A : Type) : Type :=
  | Ok (a : A)
  | Err (e : error).
Arguments Ok {A} a.
Arguments Err {A} e.

#[global] Instance result_ret : MRet result := fun A a => Ok a.
#[global] Instance result_bind : MBind result := fun A B f m =>
  match m with
  | Ok a => f a
  | Err e => Err e
  end.

Definition isOk {A} (r : result A) : bool :=
  match r with Ok _ => true | Err _ => false end.

(** A time.Time: an instant and a zone offset. *)
Record Time : Type := mkTime { unixSec : Z; nsec : Z; zoneOffset : Z }.

(** The zero Time: January 1, year 1, 00:00:00 UTC. *)
Definition zeroTime : Time := mkTime (-62135596800) 0 0.

(** What the handlers take from outside encoding/json and net/http:
    whether strconv.ParseFloat accepts a number literal as a float64
    (it refuses the ones that overflow), the RFC 3339 reader behind
    time.Time.UnmarshalJSON, and the process environment. *)
Class Platform : Type := {
  float64Fits : string -> bool;
  parseStrictRFC3339 : string -> option Time;
  Getenv : string -> string
}.

(** ** json.Unmarshal, by the kind of the target (decode.go)

    Each [store] function gives the new value of a target of one Go type
    from its old value and the JSON value decoded into it.  A JSON null
    leaves a target that is not an interface or a slice as it is.  Go
    records a type error and goes on with the rest of the document, the
    call returning an error at the end; here the first failure ends the
    decoding, which gives an error in the same cases. *)

Module Decode.

(** Go's [int] on a 64-bit platform. *)
Definition intSize : Z := 64.

Fixpoint digitsValue (acc : Z) (s : string) : option Z :=
  match s with
  | EmptyString => Some acc
  | String c r =>
      if isDigit c then digitsValue (acc * 10 + (code c - 48)) r else None
  end.

(** strconv.ParseInt(s, 10, 64) and reflect's OverflowInt. *)
Definition parseInt (lit : string) : option Z :=
  let '(neg, ds) :=
    match lit with
    | String c r =>
        if (c =? "-")%char then (true, r)
        else if (c =? "+")%char then (false, r)
        else (false, lit)
    | EmptyString => (false, lit)
    end in
  match ds with
  | EmptyString => None
  | _ =>
      match digitsValue 0 ds with
      | Some n =>
          let v := if neg then - n else n in
          if (- 2 ^ (intSize - 1) <=? v) && (v <? 2 ^ (intSize - 1))
          then Some v else None
      | None => None
      end
  end.

Definition storeInt (old : Z) (v : json) : result Z :=
  match v with
  | JNull => Ok old
  | JNum lit =>
      match parseInt lit with
      | Some n => Ok n
      | None => Err UnmarshalError
      end
  | _ => Err UnmarshalError
  end.

Definition storeString (old : string) (v : json) : result string :=
  match v with
  | JNull => Ok old
  | JStr s => Ok (unquote s)
  | _ => Err UnmarshalError
  end.

Definition storeBool (old : bool) (v : json) : result bool :=
  match v with
  | JNull => Ok old
  | JBool b => Ok b
  | _ => Err UnmarshalError
  end.

Section WithPlatform.
Context `{Platform}.

(** A target of type [any] takes every value (valueInterface); the one
    failure is a number that strconv.ParseFloat refuses, at any depth.
    The interface value is kept as the scanned value it is made from,
    nil being [JNull]. *)
Definition any : Type := json.

Fixpoint anyFits (v : json) : bool :=
  match v with
  | JNum lit => float64Fits lit
  | JArr vs => forallb anyFits vs
  | JObj ms => forallb (fun m => anyFits (snd m)) ms
  | _ => true
  end.

Definition storeAny (old : any) (v : json) : result any :=
  if anyFits v then Ok v else Err UnmarshalError.

(** A slice of [any]: null gives the nil slice, an array its elements,
    anything else is a type error. *)
Definition storeSliceAny (old : list any) (v : json) : result (list any) :=
  match v with
  | JNull => Ok []
  | JArr vs => if forallb anyFits vs then Ok vs else Err UnmarshalError
  | _ => Err UnmarshalError
  end.

(** time.Time is an Unmarshaler: null is ignored, a string literal is
    read as RFC 3339 from its raw bytes (escapes are not unquoted),
    every other value is refused. *)
Definition storeTime (old : Time) (v : json) : result Time :=
  match v with
  | JNull => Ok old
  | JStr s =>
      match parseStrictRFC3339 (rawBytes s) with
      | Some t => Ok t
      | None => Err UnmarshalError
      end
  | _ => Err UnmarshalError
  end.

End WithPlatform.

(** The value of the field tagged [name] after an object is decoded:
    the members that name the field are stored into it one after the
    other, in the order of the document; the others leave it alone.
    (Go walks the members once and stores each one into the field it
    names; a member touches no other field, so the struct that results is
    made of these values.) *)
Fixpoint fieldValue {A : Type} (name : string) (store : A -> json -> result A)
    (old : A) (ms : list (jstring * json)) : result A :=
  match ms with
  | [] => Ok old
  | (key, v) :: rest =>
      if fieldMatch name key then
        x ← store old v; fieldValue name store x rest
      else fieldValue name store old rest
  end.

(** A struct target: null leaves it as it is, an object is decoded
    member by member, every other value is a type error. *)
Definition storeStruct {A : Type} (members : A -> list (jstring * json) -> result A)
    (old : A) (v : json) : result A :=
  match v with
  | JNull => Ok old
  | JObj ms => members old ms
  | _ => Err UnmarshalError
  end.

(** A slice of structs: null gives the nil slice, an array one struct
    for each element, each decoded into a zero value.  (When the member
    is repeated Go decodes the later array over the elements the earlier
    one left; no handler reads such a field.) *)
Fixpoint storeEach {A : Type} (store : json -> result A) (vs : list json)
    : result (list A) :=
  match vs with
  | [] => Ok []
  | v :: rest => x ← store v; xs ← storeEach store rest; Ok (x :: xs)
  end.

Definition storeSlice {A : Type} (zero : A) (store : A -> json -> result A)
    (old : list A) (v : json) : result (list A) :=
  match v with
  | JNull => Ok []
  | JArr vs => storeEach (store zero) vs
  | _ => Err UnmarshalError
  end.

End Decode.
Import Decode.

(** ** The three struct types of main.go *)

(** type eventIdentfier struct: the event head alone. *)
Module eventIdentfier.

Record t : Type := mk { Event : string }.

Definition zero : t := mk EmptyString.

Definition members (old : t) (ms : list (jstring * json)) : result t :=
  event ← fieldValue "event" storeString (Event old) ms;
  Ok (mk event).

End eventIdentfier.

(** type paymentPending struct. *)
Module paymentPending.

Record dataStruct : Type := mkData {
  ID : Z;
  Domain : string;
  Amount : Z;
  Currency : string;
  DueDate : any;
  HasInvoice : bool;
  InvoiceNumber : any;
  Description : string;
  PdfURL : any;
  LineItems : list any;
  Tax : list any;
  RequestCode : string;
  Status : string;
  Paid : bool;
  PaidAt : any;
  Metadata : any;
  Notifications : list any;
  OfflineReference : string;
  Customer : Z;
  CreatedAt : Time
}.

Record t : Type := mk { Event : string; Data : dataStruct }.

Definition zeroData : dataStruct :=
  mkData 0 EmptyString 0 EmptyString JNull false JNull EmptyString JNull [] []
    EmptyString EmptyString false JNull JNull [] EmptyString 0 zeroTime.

Definition zero : t := mk EmptyString zeroData.

Section WithPlatform.
Context `{Platform}.

Definition dataMembers (old : dataStruct) (ms : list (jstring * json))
    : result dataStruct :=
  id ← fieldValue "id" storeInt (ID old) ms;
  domain ← fieldValue "domain" storeString (Domain old) ms;
  amount ← fieldValue "amount" storeInt (Amount old) ms;
  currency ← fieldValue "currency" storeString (Currency old) ms;
  due_date ← fieldValue "due_date" storeAny (DueDate old) ms;
  has_invoice ← fieldValue "has_invoice" storeBool (HasInvoice old) ms;
  invoice_number ← fieldValue "invoice_number" storeAny (InvoiceNumber old) ms;
  description ← fieldValue "description" storeString (Description old) ms;
  pdf_url ← fieldValue "pdf_url" storeAny (PdfURL old) ms;
  line_items ← fieldValue "line_items" storeSliceAny (LineItems old) ms;
  tax ← fieldValue "tax" storeSliceAny (Tax old) ms;
  request_code ← fieldValue "request_code" storeString (RequestCode old) ms;
  status ← fieldValue "status" storeString (Status old) ms;
  paid ← fieldValue "paid" storeBool (Paid old) ms;
  paid_at ← fieldValue "paid_at" storeAny (PaidAt old) ms;
  metadata ← fieldValue "metadata" storeAny (Metadata old) ms;
  notifications ← fieldValue "notifications" storeSliceAny (Notifications old) ms;
  offline_reference ← fieldValue "offline_reference" storeString (OfflineReference old) ms;
  customer ← fieldValue "customer" storeInt (Customer old) ms;
  created_at ← fieldValue "created_at" storeTime (CreatedAt old) ms;
  Ok (mkData id domain amount currency due_date has_invoice invoice_number
        description pdf_url line_items tax request_code status paid paid_at
        metadata notifications offline_reference customer created_at).

Definition members (old : t) (ms : list (jstring * json)) : result t :=
  event ← fieldValue "event" storeString (Event old) ms;
  data ← fieldValue "data" (storeStruct dataMembers) (Data old) ms;
  Ok (mk event data).

End WithPlatform.
End paymentPending.

(** type paymentSuccessful struct: as paymentPending, but paid_at is a
    time.Time and notifications is a slice of structs. *)
Module paymentSuccessful.

Record notification : Type := mkNotification { SentAt : Time; Channel : string }.

Record dataStruct : Type := mkData {
  ID : Z;
  Domain : string;
  Amount : Z;
  Currency : string;
  DueDate : any;
  HasInvoice : bool;
  InvoiceNumber : any;
  Description : string;
  PdfURL : any;
  LineItems : list any;
  Tax : list any;
  RequestCode : string;
  Status : string;
  Paid : bool;
  PaidAt : Time;
  Metadata : any;
  Notifications : list notification;
  OfflineReference : string;
  Customer : Z;
  CreatedAt : Time
}.

Record t : Type := mk { Event : string; Data : dataStruct }.

Definition zeroNotification : notification := mkNotification zeroTime EmptyString.

Definition zeroData : dataStruct :=
  mkData 0 EmptyString 0 EmptyString JNull false JNull EmptyString JNull [] []
    EmptyString EmptyString false zeroTime JNull [] EmptyString 0 zeroTime.

Definition zero : t := mk EmptyString zeroData.

Section WithPlatform.
Context `{Platform}.

Definition notificationMembers (old : notification) (ms : list (jstring * json))
    : result notification :=
  sent_at ← fieldValue "sent_at" storeTime (SentAt old) ms;
  channel ← fieldValue "channel" storeString (Channel old) ms;
  Ok (mkNotification sent_at channel).

Definition dataMembers (old : dataStruct) (ms : list (jstring * json))
    : result dataStruct :=
  id ← fieldValue "id" storeInt (ID old) ms;
  domain ← fieldValue "domain" storeString (Domain old) ms;
  amount ← fieldValue "amount" storeInt (Amount old) ms;
  currency ← fieldValue "currency" storeString (Currency old) ms;
  due_date ← fieldValue "due_date" storeAny (DueDate old) ms;
  has_invoice ← fieldValue "has_invoice" storeBool (HasInvoice old) ms;
  invoice_number ← fieldValue "invoice_number" storeAny (InvoiceNumber old) ms;
  description ← fieldValue "description" storeString (Description old) ms;
  pdf_url ← fieldValue "pdf_url" storeAny (PdfURL old) ms;
  line_items ← fieldValue "line_items" storeSliceAny (LineItems old) ms;
  tax ← fieldValue "tax" storeSliceAny (Tax old) ms;
  request_code ← fieldValue "request_code" storeString (RequestCode old) ms;
  status ← fieldValue "status" storeString (Status old) ms;
  paid ← fieldValue "paid" storeBool (Paid old) ms;
  paid_at ← fieldValue "paid_at" storeTime (PaidAt old) ms;
  metadata ← fieldValue "metadata" storeAny (Metadata old) ms;
  notifications ← fieldValue "notifications"
     (storeSlice zeroNotification (storeStruct notificationMembers))
     (Notifications old) ms;
  offline_reference ← fieldValue "offline_reference" storeString (OfflineReference old) ms;
  customer ← fieldValue "customer" storeInt (Customer old) ms;
  created_at ← fieldValue "created_at" storeTime (CreatedAt old) ms;
  Ok (mkData id domain amount currency due_date has_invoice invoice_number
        description pdf_url line_items tax request_code status paid paid_at
        metadata notifications offline_reference customer created_at).

Definition members (old : t) (ms : list (jstring * json)) : result t :=
  event ← fieldValue "event" storeString (Event old) ms;
  data ← fieldValue "data" (storeStruct dataMembers) (Data old) ms;
  Ok (mk event data).

End WithPlatform.
End paymentSuccessful.

(** ** The logger, the request and the response writer *)

(** A slog.Logger: the records written so far, oldest first. *)
Module slog.

Inductive Level : Type := INFO | ERROR.

Inductive Attr : Type :=
  | AString (s : string)
  | AInt (n : Z)
  | AError (e : error).

Record Record_ : Type := mkRecord {
  level : Level;
  msg : string;
  attrs : list (string * Attr)
}.

Definition Logger : Type := list Record_.

Definition Info (l : Logger) (m : string) (args : list (string * Attr)) : Logger :=
  l ++ [mkRecord INFO m args].

Definition Error (l : Logger) (m : string) (args : list (string * Attr)) : Logger :=
  l ++ [mkRecord ERROR m args].

End slog.

Module http.

Definition StatusOK : Z := 200.
Definition StatusInternalServerError : Z := 500.

(** An http.Request: method, path and the bytes of the body. *)
Record Request : Type := mkRequest {
  Method : string;
  Path : string;
  Body : string
}.

(** A value given to the encoder: the maps the handlers encode hold
    strings and ints under string keys. *)
Inductive Value : Type :=
  | VString (s : string)
  | VInt (n : Z).

(** One encoded JSON document, as the map it was encoded from. *)
Abbreviation Document := (gmap string Value).

(** http.ResponseWriter: the header map, the status code once it is
    written, the documents written to the body, and whether the
    connection behind the writer refuses writes. *)
Record ResponseWriter : Type := mkResponseWriter {
  header : gmap string (list string);
  status : option Z;
  body : list Document;
  failing : bool
}.

Definition newResponseWriter (failing : bool) : ResponseWriter :=
  mkResponseWriter ∅ None [] failing.

(** w.Header().Add(key, value), for a key in canonical form. *)
Definition HeaderAdd (w : ResponseWriter) (key value : string) : ResponseWriter :=
  mkResponseWriter
    (<[key := default [] (header w !! key) ++ [value]]> (header w))
    (status w) (body w) (failing w).

(** w.WriteHeader(code): the first status code written stays. *)
Definition WriteHeader (w : ResponseWriter) (code : Z) : ResponseWriter :=
  match status w with
  | Some _ => w
  | None => mkResponseWriter (header w) (Some code) (body w) (failing w)
  end.

(** w.Write: writes the status 200 first when none was written. *)
Definition Write (w : ResponseWriter) (d : Document) : ResponseWriter * result unit :=
  let w := WriteHeader w StatusOK in
  if failing w then (w, Err WriteError)
  else (mkResponseWriter (header w) (status w) (body w ++ [d]) (failing w), Ok tt).

(** What the client is sent when the handler has returned: the server
    writes the status 200 when the handler wrote none. *)
Record Response : Type := mkResponse {
  StatusCode : Z;
  Header : gmap string (list string);
  Content : list Document
}.

Definition finish (w : ResponseWriter) : Response :=
  mkResponse (default StatusOK (status w)) (header w) (body w).

Definition HandlerFunc : Type := ResponseWriter -> Request -> slog.Logger * ResponseWriter.

End http.

Module json_.

(** json.NewDecoder(r.Body).Decode(&jsonData) with jsonData a
    json.RawMessage: the first value of the stream, whatever follows it.
    The raw message is kept as the scanned value. *)
Definition Decode (body : string) : result json :=
  match Scanner.readValue body with
  | Some (v, _) => Ok v
  | None => Err DecodeError
  end.

(** json.Unmarshal(data, &v) for a struct v whose members are decoded
    by [members]; [data] is a raw message, so it is valid JSON. *)
Definition Unmarshal {A : Type} (members : A -> list (jstring * json) -> result A)
    (data : json) (v : A) : result A :=
  storeStruct members v data.

(** json.NewEncoder(w).Encode(v) for a map of strings and ints: the
    encoding cannot fail, the write can. *)
Definition Encode (w : http.ResponseWriter) (v : http.Document)
    : http.ResponseWriter * result unit :=
  http.Write w v.

End json_.

(** ** The handlers of main.go *)

Section Handlers.
Context `{Platform}.
Import slog http json_.

Definition HealthCheck (l : Logger) : HandlerFunc := fun w r =>
  match Encode w {[ "data" := VString "Hello from localhost:3000" ]} with
  | (w, Err err) =>
      (Error l "error encoding data to send as response" [("error context", AError err)], w)
  | (w, Ok _) => (l, w)
  end.

Definition HandleDynamicAPI (l : Logger) : HandlerFunc := fun w r =>
  let l := Info l "This API is connected" [("user", AString (Getenv "USER"))] in
  match Decode (Body r) with
  | Err err =>
      (Error l "error decoding json response" [("error context", AError err)], w)
  | Ok jsonData =>
  match Unmarshal eventIdentfier.members jsonData eventIdentfier.zero with
  | Err err =>
      (Error l "error unmarshalling json data message" [("error context", AError err)], w)
  | Ok eventIdentfier =>
  if String.eqb (eventIdentfier.Event eventIdentfier) "paymentrequest.pending" then
    let l := Info l "payment pending hook event"
               [("response event title", AString (eventIdentfier.Event eventIdentfier))] in
    match Unmarshal paymentPending.members jsonData paymentPending.zero with
    | Err err =>
        (Error l "error marshalling pending payment data" [("error context", AError err)], w)
    | Ok paymentPending =>
        let w := HeaderAdd w "Content-Type" "application/json" in
        match Encode w {[ "event type" := VString (paymentPending.Event paymentPending);
                          "amount" := VInt (paymentPending.Amount (paymentPending.Data paymentPending)) ]} with
        | (w, Err err) =>
            (Error l "error encoding data to send as response" [("error context", AError err)], w)
        | (w, Ok _) =>
            (Info l "pending response data unmarshalled successfully"
               [("pending ID", AInt (paymentPending.ID (paymentPending.Data paymentPending)));
                ("pending amount", AInt (paymentPending.Amount (paymentPending.Data paymentPending)))], w)
        end
    end
  else if String.eqb (eventIdentfier.Event eventIdentfier) "paymentrequest.success" then
    let l := Info l "payment successful hook event"
               [("response event title", AString (eventIdentfier.Event eventIdentfier))] in
    match Unmarshal paymentSuccessful.members jsonData paymentSuccessful.zero with
    | Err err =>
        (Error l "error marshalling successful payment data" [("error context", AError err)], w)
    | Ok paymentSuccessful =>
        let w := HeaderAdd w "Content-Type" "application/json" in
        match Encode w {[ "event type" := VString (paymentSuccessful.Event paymentSuccessful);
                          "description" := VString (paymentSuccessful.Description (paymentSuccessful.Data paymentSuccessful)) ]} with
        | (w, Err err) => (l, w)
        | (w, Ok _) =>
            (Info l "success response data unmarshalled successfully"
               [("success ID", AInt (paymentSuccessful.ID (paymentSuccessful.Data paymentSuccessful)));
                ("success amount", AInt (paymentSuccessful.Amount (paymentSuccessful.Data paymentSuccessful)))], w)
        end
    end
  else
    let l := Info l "no event type found"
               [("response event title", AString (eventIdentfier.Event eventIdentfier))] in
    (l, WriteHeader w StatusInternalServerError)
  end
  end.

End Handlers.

(** * Part II: the vocabulary of the properties *)

Import slog http json_.

(** The document a request body consists of when the body is valid
    JSON: one value and nothing but whitespace after it. *)
Definition document (s : string) : option json :=
  match Scanner.readValue s with
  | Some (v, rest) => if allSpace rest then Some v else None
  | None => None
  end.

(** The two recognized event kinds and the strings that name them. *)
Inductive Kind : Type := Pending | Successful.

Definition kindName (k : Kind) : string :=
  match k with
  | Pending => "paymentrequest.pending"
  | Successful => "paymentrequest.success"
  end.

(** The message of the record logged before a payload is decoded under
    the schema of a kind, and of the one logged when that decoding fails. *)
Definition hookMsg (k : Kind) : string :=
  match k with
  | Pending => "payment pending hook event"
  | Successful => "payment successful hook event"
  end.

Definition mismatchMsg (k : Kind) : string :=
  match k with
  | Pending => "error marshalling pending payment data"
  | Successful => "error marshalling successful payment data"
  end.

(** The header the two success paths set. *)
Definition jsonHeader : gmap string (list string) :=
  {[ "Content-Type" := ["application/json"] ]}.

(** The records every call of the webhook handler starts with. *)
Definition connected `{Platform} : Record_ :=
  mkRecord INFO "This API is connected" [("user", AString (Getenv "USER"))].

Definition hookRecord (k : Kind) : Record_ :=
  mkRecord INFO (hookMsg k) [("response event title", AString (kindName k))].

(** Writes JSON text with apostrophes for the double quotes. *)
Fixpoint dq (s : string) : string :=
  match s with
  | EmptyString => EmptyString
  | String c r => String (if (c =? "'")%char then dquote else c) (dq r)
  end.

(** A platform to run the handlers on concrete requests: every number
    fits a float64, every string is refused as a time. *)
Definition demoPlatform : Platform :=
  {| float64Fits := fun _ => true;
     parseStrictRFC3339 := fun _ => None;
     Getenv := fun _ => "deploy" |}.

Definition post (body : string) : Request := mkRequest "POST" "/dynamic-hook" (dq body).

(** Whether a value decodes without error under the schema of a kind. *)
Definition decodesAs `{Platform} (k : Kind) (v : json) : bool :=
  match k with
  | Pending => isOk (Unmarshal paymentPending.members v paymentPending.zero)
  | Successful => isOk (Unmarshal paymentSuccessful.members v paymentSuccessful.zero)
  end.

(** ** Reading a document *)

(** The values of the members of an object that name the field tagged
    [name], in the order of the document. *)
Definition memberValues (name : string) (ms : list (jstring * json)) : list json :=
  map snd (filter (fun m => fieldMatch name (fst m)) ms).

Definition isStringOrNull (v : json) : bool :=
  match v with
  | JStr _ | JNull => true
  | _ => false
  end.

(** The strings among some values, unquoted. *)
Definition stringsOf (vs : list json) : list string :=
  omap (fun v => match v with JStr s => Some (unquote s) | _ => None end) vs.

(** The integers among some values. *)
Definition intsOf (vs : list json) : list Z :=
  omap (fun v => match v with JNum lit => parseInt lit | _ => None end) vs.

(** The members of the data objects of a payload, in the order of the
    document. *)
Definition dataMembersOf (ms : list (jstring * json)) : list (jstring * json) :=
  concat (map (fun x => match x with JObj dms => dms | _ => [] end)
            (memberValues "data" ms)).

(** The event the envelope takes from a document, in the words of the
    contract as the code keeps it: null gives the empty string; an object
    gives the last string held by a member named event, the empty string
    when there is none, unless such a member holds something that is
    neither a string nor null; every other document is refused. *)
Definition envelopeEvent (v : json) : option string :=
  match v with
  | JNull => Some EmptyString
  | JObj ms =>
      if forallb isStringOrNull (memberValues "event" ms)
      then Some (List.last (stringsOf (memberValues "event" ms)) EmptyString)
      else None
  | _ => None
  end.

(** ** Serving requests *)

Definition healthResponse : Response :=
  mkResponse 200 ∅ [ {[ "data" := VString "Hello from localhost:3000" ]} ].

(** The server answering a sequence of requests with one handler: the
    logger is shared, each request gets a fresh response writer. *)
Fixpoint serveAll (h : Logger -> HandlerFunc) (l : Logger) (rs : list Request)
    : Logger * list Response :=
  match rs with
  | [] => (l, [])
  | r :: rest =>
      let '(l1, w) := h l (newResponseWriter false) r in
      let '(l2, out) := serveAll h l1 rest in
      (l2, finish w :: out)
  end.

(** ** Dispatch on the event *)

(** The branch of a kind is taken in a call when the hook record of the
    kind is among the records the call logs. *)
Definition branchTaken (k : Kind) (log : Logger) : Prop :=
  In (hookMsg k) (map msg log).

(** json.Unmarshal has no effect but on its target, a local variable of
    the call, so a decoding shows in a call through what the call makes
    of its result and in no other way.  That a payload is decoded under
    the schema of its kind only is therefore stated on results: the
    result of the call is a function of that one decoding.

    Two payloads decode alike under the schema of a kind: from both
    json.Unmarshal fills the struct of the kind with the same values, or
    fails on both with the same error. *)
Definition sameDecoding `{Platform} (k : Kind) (v v' : json) : Prop :=
  match k with
  | Pending =>
      Unmarshal paymentPending.members v paymentPending.zero =
      Unmarshal paymentPending.members v' paymentPending.zero
  | Successful =>
      Unmarshal paymentSuccessful.members v paymentSuccessful.zero =
      Unmarshal paymentSuccessful.members v' paymentSuccessful.zero
  end.

(** The record of the default branch of the switch. *)
Definition noEventRecord (event : string) : Record_ :=
  mkRecord INFO "no event type found" [("response event title", AString event)].

(** ** Schemas as tables of fields *)

(** Whether a store function takes a value does not depend on what the
    target held before. *)
Definition oblivious {A : Type} (store : A -> json -> result A) : Prop :=
  forall old old' v, isOk (store old v) = isOk (store old' v).

(** The values a field of some Go type takes, given its store function. *)
Definition accepts {A : Type} (store : A -> json -> result A) (zero : A) (v : json) : bool :=
  isOk (store zero v).

Section Vocabulary.
Context `{Platform}.

(** The fields of the data struct of a pending payment event, by tag,
    each with the values its type takes. *)
Definition pendingDataFields : list (string * (json -> bool)) :=
  [ ("id", accepts storeInt 0);
    ("domain", accepts storeString EmptyString);
    ("amount", accepts storeInt 0);
    ("currency", accepts storeString EmptyString);
    ("due_date", accepts storeAny JNull);
    ("has_invoice", accepts storeBool false);
    ("invoice_number", accepts storeAny JNull);
    ("description", accepts storeString EmptyString);
    ("pdf_url", accepts storeAny JNull);
    ("line_items", accepts storeSliceAny []);
    ("tax", accepts storeSliceAny []);
    ("request_code", accepts storeString EmptyString);
    ("status", accepts storeString EmptyString);
    ("paid", accepts storeBool false);
    ("paid_at", accepts storeAny JNull);
    ("metadata", accepts storeAny JNull);
    ("notifications", accepts storeSliceAny []);
    ("offline_reference", accepts storeString EmptyString);
    ("customer", accepts storeInt 0);
    ("created_at", accepts storeTime zeroTime) ].

(** The fields of a notification and of the data struct of a
    successful payment event. *)
Definition notificationFields : list (string * (json -> bool)) :=
  [ ("sent_at", accepts storeTime zeroTime);
    ("channel", accepts storeString EmptyString) ].

Definition successfulDataFields : list (string * (json -> bool)) :=
  [ ("id", accepts storeInt 0);
    ("domain", accepts storeString EmptyString);
    ("amount", accepts storeInt 0);
    ("currency", accepts storeString EmptyString);
    ("due_date", accepts storeAny JNull);
    ("has_invoice", accepts storeBool false);
    ("invoice_number", accepts storeAny JNull);
    ("description", accepts storeString EmptyString);
    ("pdf_url", accepts storeAny JNull);
    ("line_items", accepts storeSliceAny []);
    ("tax", accepts storeSliceAny []);
    ("request_code", accepts storeString EmptyString);
    ("status", accepts storeString EmptyString);
    ("paid", accepts storeBool false);
    ("paid_at", accepts storeTime zeroTime);
    ("metadata", accepts storeAny JNull);
    ("notifications",
       accepts (storeSlice paymentSuccessful.zeroNotification
                  (storeStruct paymentSuccessful.notificationMembers)) []);
    ("offline_reference", accepts storeString EmptyString);
    ("customer", accepts storeInt 0);
    ("created_at", accepts storeTime zeroTime) ].

(** Every member of the object that names a field of the table holds a
    value the field takes. *)
Definition wellTyped (fields : list (string * (json -> bool)))
    (ms : list (jstring * json)) : bool :=
  forallb (fun f => forallb (snd f) (memberValues (fst f) ms)) fields.

(** For each kind: the table of its data fields, the field the answer
    projects, and the answer when that field is at its zero value. *)
Definition dataFields (k : Kind) : list (string * (json -> bool)) :=
  match k with
  | Pending => pendingDataFields
  | Successful => successfulDataFields
  end.

Definition projected (k : Kind) : string :=
  match k with
  | Pending => "amount"
  | Successful => "description"
  end.

Definition zeroAnswer (k : Kind) : Document :=
  match k with
  | Pending =>
      {[ "event type" := VString "paymentrequest.pending"; "amount" := VInt 0 ]}
  | Successful =>
      {[ "event type" := VString "paymentrequest.success";
         "description" := VString EmptyString ]}
  end.

(** The values a data member may hold: null, or an object in which
    every member that names a declared field is of its type. *)
Definition dataAccepts (fields : list (string * (json -> bool))) (x : json) : bool :=
  match x with
  | JNull => true
  | JObj dms => wellTyped fields dms
  | _ => false
  end.

End Vocabulary.

(** ** Fuel of the scanner *)

(** What a scan needs: twice the bytes it reads, one more for the
    members of an object and the elements of an array. *)
Definition enoughValue (d : nat) (s : string) (v : json) (rest : string) : Prop :=
  (String.length rest < String.length s)%nat
  /\ forall f', (2 * (String.length s - String.length rest) <= f')%nat ->
                Scanner.scanValue f' d s = Some (v, rest).

Definition enoughMembers (d : nat) (s : string) (ms : list (jstring * json))
    (rest : string) : Prop :=
  (String.length rest < String.length s)%nat
  /\ forall f', (2 * (String.length s - String.length rest) + 1 <= f')%nat ->
                Scanner.scanMembers f' d s = Some (ms, rest).

Definition enoughElements (d : nat) (s : string) (vs : list json) (rest : string) : Prop :=
  (String.length rest < String.length s)%nat
  /\ forall f', (2 * (String.length s - String.length rest) + 1 <= f')%nat ->
                Scanner.scanElements f' d s = Some (vs, rest).

(** ** Calls of the webhook handler *)

(** What one call of the webhook handler on a fresh writer logs, and
    what the client is sent. *)
Definition callLog `{Platform} (r : Request) : Logger :=
  (HandleDynamicAPI [] (newResponseWriter false) r).1.

Definition callResponse `{Platform} (r : Request) : Response :=
  finish (HandleDynamicAPI [] (newResponseWriter false) r).2.

(** A request whose event is read and is neither of the two names. *)
Definition unrecognized `{Platform} (r : Request) : Prop :=
  exists v e,
    Decode (Body r) = Ok v
    /\ Unmarshal eventIdentfier.members v eventIdentfier.zero = Ok e
    /\ eventIdentfier.Event e <> "paymentrequest.pending"
    /\ eventIdentfier.Event e <> "paymentrequest.success".

(** A request whose event names a kind under whose schema the payload
    decodes. *)
Definition answerable `{Platform} (r : Request) : Prop :=
  exists v e k,
    Decode (Body r) = Ok v
    /\ Unmarshal eventIdentfier.members v eventIdentfier.zero = Ok e
    /\ eventIdentfier.Event e = kindName k
    /\ decodesAs k v = true.

(** A request sent as a POST to the webhook, the body given as it is. *)
Definition hook (body : string) : Request := mkRequest "POST" "/dynamic-hook" body.

(** The request with another body. *)
Definition withBody (r : Request) (b : string) : Request :=
  mkRequest (Method r) (Path r) b.

Definition isNumber (v : json) : bool :=
  match v with JNum _ => true | _ => false end.

(** ** Declared fields *)

(** The tags of the fields of the three structs at the top level, and
    of the fields of the two data structs, which declare the same tags. *)
Definition topNames : list string := ["event"; "data"].

Definition dataNames : list string :=
  ["id"; "domain"; "amount"; "currency"; "due_date"; "has_invoice";
   "invoice_number"; "description"; "pdf_url"; "line_items"; "tax";
   "request_code"; "status"; "paid"; "paid_at"; "metadata"; "notifications";
   "offline_reference"; "customer"; "created_at"].

(** Whether the name of a member names one of the fields. *)
Definition declaredIn (names : list string) (key : jstring) : bool :=
  existsb (fun name => fieldMatch name key) names.

(** Two objects hold the same values, in the same order, for each of
    the fields. *)
Definition sameMembers (names : list string) (ms ms' : list (jstring * json)) : Prop :=
  Forall (fun name => memberValues name ms = memberValues name ms') names.

(** Storing some values in a field one after the other. *)
Fixpoint storeAll {A : Type} (store : A -> json -> result A) (old : A)
    (vs : list json) : result A :=
  match vs with
  | [] => Ok old
  | v :: rest => x ← store old v; storeAll store x rest
  end.

(** ** Bodies written from text *)

(** Text that stands for itself between the quotes of a JSON string:
    ASCII bytes from the space on, without the quote and the backslash. *)
Fixpoint plainText (s : string) : bool :=
  match s with
  | EmptyString => true
  | String c r =>
      (32 <=? code c) && (code c <? 128) && negb (c =? dquote)%char
      && negb (c =? "\")%char && plainText r
  end.

(** The text between quotes, and a member name with its colon, each
    before the rest of the body. *)
Definition quoted (s rest : string) : string :=
  String dquote (s +:+ String dquote rest).

Definition member (key rest : string) : string :=
  quoted key (String ":" rest).

(** The body of a successful payment event that carries a description
    and nothing else. *)
Definition successBody (s : string) : string :=
  dq "{'event':'paymentrequest.success','data':{'description':'" +:+ s +:+ dq "'}}".

(** A decimal literal without sign, fraction or exponent: 0, or digits
    that do not start with 0; and the integer it writes. *)
Fixpoint allDigits (s : string) : bool :=
  match s with
  | EmptyString => true
  | String c r => isDigit c && allDigits r
  end.

Definition decimalLiteral (ds : string) : bool :=
  match ds with
  | EmptyString => false
  | String c r =>
      if (c =? "0")%char then
        match r with EmptyString => true | _ => false end
      else isDigit19 c && allDigits r
  end.

Fixpoint decimalValue (acc : Z) (ds : string) : Z :=
  match ds with
  | EmptyString => acc
  | String c r => decimalValue (acc * 10 + (code c - 48)) r
  end.

(** The body of a pending payment event that carries an amount and
    nothing else. *)
Definition pendingBody (ds : string) : string :=
  dq "{'event':'paymentrequest.pending','data':{'amount':" +:+ ds +:+ "}}".

(** * Part III: facts *)

(** ** The scanner reads with enough fuel *)

Module ScannerFacts.
Import Scanner.

Local Open Scope nat_scope.

Lemma skipSpace_length (s : string) : String.length (skipSpace s) <= String.length s.
Proof.
  induction s as [|c s IH]; [reflexivity|]. cbn [skipSpace].
  destruct (isSpace c); cbn [String.length]; lia.
Qed.

Lemma expect_length (c : ascii) (s r : string) :
  expect c s = Some r -> String.length r < String.length s.
Proof.
  unfold expect. pose proof (skipSpace_length s) as Hs.
  destruct (skipSpace s) as [|c' r']; [discriminate|].
  destruct (c' =? c)%char; [|discriminate]. intros [= <-]. cbn [String.length] in Hs. lia.
Qed.

Lemma scanString_length (s : string) (items : jstring) (rest : string) :
  scanString s = Some (items, rest) -> String.length rest < String.length s.
Proof.
  revert items rest. remember (String.length s) as n eqn:Hn.
  revert s Hn. induction n as [n IHn] using lt_wf_ind. intros s -> items rest.
  assert (IH : forall s' items' rest', String.length s' < String.length s ->
             scanString s' = Some (items', rest') ->
             String.length rest' < String.length s').
  { intros s' items' rest' Hlt. exact (IHn _ Hlt s' eq_refl items' rest'). }
  clear IHn. destruct s as [|c r]; [discriminate|]. cbn [scanString].
  destruct (c =? dquote)%char.
  { intros [= <- <-]. cbn. lia. }
  destruct (c =? "\")%char.
  - destruct r as [|e r1]; [discriminate|].
    destruct (e =? "u")%char.
    + destruct r1 as [|h1 [|h2 [|h3 [|h4 r2]]]]; try discriminate.
      destruct (isHex h1 && isHex h2 && isHex h3 && isHex h4); [|discriminate].
      destruct (scanString r2) as [[items' rest']|] eqn:E; [|discriminate].
      intros [= <- <-]. apply IH in E; cbn [String.length] in *; lia.
    + destruct (existsb _ _); [|discriminate].
      destruct (scanString r1) as [[items' rest']|] eqn:E; [|discriminate].
      intros [= <- <-]. apply IH in E; cbn [String.length] in *; lia.
  - destruct (code c <? 32)%Z; [discriminate|].
    destruct (scanString r) as [[items' rest']|] eqn:E; [|discriminate].
    intros [= <- <-]. apply IH in E; cbn [String.length] in *; lia.
Qed.

Lemma scanDigits_length (s : string) :
  String.length (scanDigits s).2 <= String.length s.
Proof.
  induction s as [|c s IH]; [reflexivity|]. cbn [scanDigits].
  destruct (isDigit c); [|reflexivity].
  destruct (scanDigits s) as [ds rest]. cbn [snd String.length] in *. lia.
Qed.

Lemma scanFrac_length (s f rest : string) :
  scanFrac s = Some (f, rest) -> String.length rest <= String.length s.
Proof.
  unfold scanFrac. destruct s as [|c r]; [intros [= <- <-]; reflexivity|].
  destruct (c =? ".")%char; [|intros [= <- <-]; reflexivity].
  pose proof (scanDigits_length r) as Hd.
  destruct (scanDigits r) as [[|d ds] rest']; [discriminate|].
  intros [= <- <-]. cbn [snd String.length] in *. lia.
Qed.

Lemma scanExp_length (s e rest : string) :
  scanExp s = Some (e, rest) -> String.length rest <= String.length s.
Proof.
  unfold scanExp. destruct s as [|c r]; [intros [= <- <-]; reflexivity|].
  destruct ((c =? "e")%char || (c =? "E")%char); [|intros [= <- <-]; reflexivity].
  destruct r as [|g r'].
  - cbn. discriminate.
  - destruct ((g =? "+")%char || (g =? "-")%char).
    + pose proof (scanDigits_length r') as Hd.
      destruct (scanDigits r') as [[|d ds] rest']; [discriminate|].
      intros [= <- <-]. cbn [snd String.length] in *. lia.
    + pose proof (scanDigits_length (String g r')) as Hd.
      destruct (scanDigits (String g r')) as [[|d ds] rest']; [discriminate|].
      intros [= <- <-]. cbn [snd String.length] in *. lia.
Qed.

Lemma scanUnsigned_length (s lit rest : string) :
  scanUnsigned s = Some (lit, rest) -> String.length rest < String.length s.
Proof.
  unfold scanUnsigned. destruct s as [|c r]; [discriminate|].
  assert (Hip : forall i r1,
             (if (c =? "0")%char then Some (String c EmptyString, r)
              else if isDigit19 c
                   then let '(ds, rest0) := scanDigits r in Some (String c ds, rest0)
                   else None) = Some (i, r1) ->
             String.length r1 <= String.length r).
  { intros i r1. destruct (c =? "0")%char; [intros [= <- <-]; reflexivity|].
    destruct (isDigit19 c); [|discriminate].
    pose proof (scanDigits_length r) as Hd. destruct (scanDigits r) as [ds rest0].
    intros [= <- <-]. exact Hd. }
  destruct (if (c =? "0")%char then _ else _) as [[i r1]|]; [|discriminate].
  specialize (Hip i r1 eq_refl).
  destruct (scanFrac r1) as [[f r2]|] eqn:Ef; [|discriminate].
  destruct (scanExp r2) as [[e r3]|] eqn:Ee; [|discriminate].
  intros [= <- <-]. apply scanFrac_length in Ef. apply scanExp_length in Ee.
  cbn [String.length]. lia.
Qed.

Lemma scanNumber_length (s lit rest : string) :
  scanNumber s = Some (lit, rest) -> String.length rest < String.length s.
Proof.
  unfold scanNumber. destruct s as [|c r]; [discriminate|].
  destruct (c =? "-")%char; [|apply scanUnsigned_length].
  destruct (scanUnsigned r) as [[n rest']|] eqn:E; [|discriminate].
  intros [= <- <-]. apply scanUnsigned_length in E. cbn [String.length]. lia.
Qed.

Lemma stripPrefix_length (p s r : string) :
  stripPrefix p s = Some r -> String.length r <= String.length s.
Proof.
  revert s. induction p as [|a p IH]; intros s; cbn [stripPrefix].
  - intros [= <-]. reflexivity.
  - destruct s as [|b s]; [discriminate|]. destruct (a =? b)%char; [|discriminate].
    intros Hs. apply IH in Hs. cbn [String.length]. lia.
Qed.

Lemma scan_enough (f : nat) :
  (forall d s v rest, scanValue f d s = Some (v, rest) -> enoughValue d s v rest)
  /\ (forall d s ms rest, scanMembers f d s = Some (ms, rest) -> enoughMembers d s ms rest)
  /\ (forall d s vs rest, scanElements f d s = Some (vs, rest) -> enoughElements d s vs rest).
Proof.
  induction f as [|f (IHv & IHm & IHe)]; [repeat split; discriminate|].
  split; [|split].
  - intros d s v rest. cbn [scanValue].
    pose proof (skipSpace_length s) as Hs.
    destruct (skipSpace s) as [|c r] eqn:Es; [discriminate|]. cbn [String.length] in Hs.
    assert (Hleaf : forall v rest,
               String.length rest <= String.length r ->
               (forall f', scanValue (S f') d s = Some (v, rest)) ->
               enoughValue d s v rest).
    { intros v0 rest0 Hl Hall. split; [lia|]. intros [|f'] Hf'; [lia|apply Hall]. }
    destruct (c =? "{")%char eqn:Eo.
    { destruct (d <? maxNestingDepth) eqn:Ed; [|discriminate].
      destruct (expect "}" r) as [r'|] eqn:Ex.
      - intros [= <- <-]. apply expect_length in Ex as Hx.
        apply Hleaf; [lia|]. intros f'. cbn [scanValue]. rewrite Es, Eo, Ed, Ex. reflexivity.
      - destruct (scanMembers f (S d) r) as [[ms rest']|] eqn:Em; [|discriminate].
        intros [= <- <-]. apply IHm in Em as [Hl Hm]. split; [lia|].
        intros [|f'] Hf'; [lia|]. cbn [scanValue]. rewrite Es, Eo, Ed, Ex, Hm; [reflexivity|lia]. }
    destruct (c =? "[")%char eqn:Ea.
    { destruct (d <? maxNestingDepth) eqn:Ed; [|discriminate].
      destruct (expect "]" r) as [r'|] eqn:Ex.
      - intros [= <- <-]. apply expect_length in Ex as Hx.
        apply Hleaf; [lia|]. intros f'. cbn [scanValue]. rewrite Es, Eo, Ea, Ed, Ex. reflexivity.
      - destruct (scanElements f (S d) r) as [[vs rest']|] eqn:Em; [|discriminate].
        intros [= <- <-]. apply IHe in Em as [Hl Hm]. split; [lia|].
        intros [|f'] Hf'; [lia|]. cbn [scanValue].
        rewrite Es, Eo, Ea, Ed, Ex, Hm; [reflexivity|lia]. }
    destruct (c =? dquote)%char eqn:Eq.
    { destruct (scanString r) as [[items rest']|] eqn:Estr; [|discriminate].
      intros [= <- <-]. apply scanString_length in Estr as Hl.
      apply Hleaf; [lia|]. intros f'. cbn [scanValue]. rewrite Es, Eo, Ea, Eq, Estr. reflexivity. }
    destruct (c =? "t")%char eqn:Et.
    { destruct (stripPrefix "rue" r) as [rest'|] eqn:Ep; [|discriminate].
      intros [= <- <-]. apply stripPrefix_length in Ep as Hl.
      apply Hleaf; [lia|]. intros f'. cbn [scanValue]. rewrite Es, Eo, Ea, Eq, Et, Ep. reflexivity. }
    destruct (c =? "f")%char eqn:Ef.
    { destruct (stripPrefix "alse" r) as [rest'|] eqn:Ep; [|discriminate].
      intros [= <- <-]. apply stripPrefix_length in Ep as Hl.
      apply Hleaf; [lia|]. intros f'. cbn [scanValue].
      rewrite Es, Eo, Ea, Eq, Et, Ef, Ep. reflexivity. }
    destruct (c =? "n")%char eqn:En.
    { destruct (stripPrefix "ull" r) as [rest'|] eqn:Ep; [|discriminate].
      intros [= <- <-]. apply stripPrefix_length in Ep as Hl.
      apply Hleaf; [lia|]. intros f'. cbn [scanValue].
      rewrite Es, Eo, Ea, Eq, Et, Ef, En, Ep. reflexivity. }
    destruct (scanNumber (String c r)) as [[lit rest']|] eqn:Enum; [|discriminate].
    intros [= <- <-]. apply scanNumber_length in Enum as Hl. cbn [String.length] in Hl.
    apply Hleaf; [lia|]. intros f'. cbn [scanValue].
    rewrite Es, Eo, Ea, Eq, Et, Ef, En, Enum. reflexivity.
  - intros d s ms rest. cbn [scanMembers].
    destruct (expect dquote s) as [r|] eqn:E0; [|discriminate].
    destruct (scanString r) as [[key r1]|] eqn:E1; [|discriminate].
    destruct (expect ":" r1) as [r2|] eqn:E2; [|discriminate].
    destruct (scanValue f d r2) as [[v r3]|] eqn:E3; [|discriminate].
    apply expect_length in E0 as H0. apply scanString_length in E1 as H1.
    apply expect_length in E2 as H2. apply IHv in E3 as [H3 Hv].
    destruct (expect "," r3) as [r4|] eqn:E4.
    + destruct (scanMembers f d r4) as [[ms' rest']|] eqn:E5; [|discriminate].
      intros [= <- <-]. apply expect_length in E4 as H4. apply IHm in E5 as [H5 Hm].
      split; [lia|]. intros [|f'] Hf'; [lia|]. cbn [scanMembers].
      rewrite E0, E1, E2, Hv, E4, Hm; [reflexivity|lia|lia].
    + destruct (expect "}" r3) as [r4|] eqn:E5; [|discriminate].
      intros [= <- <-]. apply expect_length in E5 as H5.
      split; [lia|]. intros [|f'] Hf'; [lia|]. cbn [scanMembers].
      rewrite E0, E1, E2, Hv, E4, E5; [reflexivity|lia].
  - intros d s vs rest. cbn [scanElements].
    destruct (scanValue f d s) as [[v r1]|] eqn:E1; [|discriminate].
    apply IHv in E1 as [H1 Hv].
    destruct (expect "," r1) as [r2|] eqn:E2.
    + destruct (scanElements f d r2) as [[vs' rest']|] eqn:E3; [|discriminate].
      intros [= <- <-]. apply expect_length in E2 as H2. apply IHe in E3 as [H3 He].
      split; [lia|]. intros [|f'] Hf'; [lia|]. cbn [scanElements].
      rewrite Hv, E2, He; [reflexivity|lia|lia].
    + destruct (expect "]" r1) as [r2|] eqn:E3; [|discriminate].
      intros [= <- <-]. apply expect_length in E3 as H3.
      split; [lia|]. intros [|f'] Hf'; [lia|]. cbn [scanElements].
      rewrite Hv, E2, E3; [reflexivity|lia].
Qed.

(** The fuel [readValue] takes is enough: a value that some amount of
    fuel reads from the input is the value [readValue] reads. *)
Lemma readValue_complete (f : nat) (s : string) (v : json) (rest : string) :
  scanValue f 0 s = Some (v, rest) -> readValue s = Some (v, rest).
Proof.
  intros Hs. apply (proj1 (scan_enough f)) in Hs as [Hl Hv].
  apply Hv. unfold fuelFor. lia.
Qed.

(** So an input [readValue] reads nothing from has no value at its
    front, whatever the fuel. *)
Lemma readValue_None (s : string) :
  readValue s = None -> forall f, scanValue f 0 s = None.
Proof.
  intros Hn f. destruct (scanValue f 0 s) as [[v rest]|] eqn:E; [|reflexivity].
  apply readValue_complete in E. congruence.
Qed.

End ScannerFacts.

(** ** Basic facts *)

Lemma document_valid (s : string) (v : json) :
  document s = Some v -> Scanner.valid s = true.
Proof.
  unfold document, Scanner.valid.
  destruct (Scanner.readValue s) as [[v' rest]|]; [|discriminate].
  destruct (allSpace rest); [reflexivity|discriminate].
Qed.

Lemma valid_document (s : string) :
  Scanner.valid s = true -> exists v, document s = Some v.
Proof.
  unfold document, Scanner.valid.
  destruct (Scanner.readValue s) as [[v' rest]|]; [|discriminate].
  intros ->. eauto.
Qed.

Lemma document_Decode (s : string) (v : json) :
  document s = Some v -> Decode s = Ok v.
Proof.
  unfold document, Decode.
  destruct (Scanner.readValue s) as [[v' rest]|]; [|discriminate].
  destruct (allSpace rest); [|discriminate].
  intros [= ->]. reflexivity.
Qed.

Lemma Decode_fails_invalid (s : string) (e : error) :
  Decode s = Err e -> Scanner.valid s = false /\ e = DecodeError.
Proof.
  unfold Decode, Scanner.valid.
  destruct (Scanner.readValue s) as [[v' rest]|]; [discriminate|].
  intros [= <-]. split; reflexivity.
Qed.

(** Binding a result. *)
Lemma bind_Ok_inv {A B : Type} (m : result A) (f : A -> result B) (b : B) :
  (m ≫= f) = Ok b -> exists a, m = Ok a /\ f a = Ok b.
Proof. destruct m as [a|e]; [eauto|discriminate]. Qed.

Lemma bind_Err_inv {A B : Type} (m : result A) (f : A -> result B) (e : error) :
  (m ≫= f) = Err e -> m = Err e \/ exists a, m = Ok a /\ f a = Err e.
Proof. destruct m as [a|e']; cbn; intros Hm; [right; eauto|left; congruence]. Qed.

(** The event of the typed structs is the event of the envelope: the
    three struct types declare the same field under the same tag. *)
Lemma pending_event_members `{Platform} (old : paymentPending.t)
    (ms : list (jstring * json)) (p : paymentPending.t) :
  paymentPending.members old ms = Ok p ->
  eventIdentfier.members (eventIdentfier.mk (paymentPending.Event old)) ms
  = Ok (eventIdentfier.mk (paymentPending.Event p)).
Proof.
  unfold paymentPending.members, eventIdentfier.members. cbn [eventIdentfier.Event].
  intros Hp.
  apply bind_Ok_inv in Hp as (ev & -> & Hp).
  apply bind_Ok_inv in Hp as (d & _ & [= <-]).
  reflexivity.
Qed.

Lemma successful_event_members `{Platform} (old : paymentSuccessful.t)
    (ms : list (jstring * json)) (p : paymentSuccessful.t) :
  paymentSuccessful.members old ms = Ok p ->
  eventIdentfier.members (eventIdentfier.mk (paymentSuccessful.Event old)) ms
  = Ok (eventIdentfier.mk (paymentSuccessful.Event p)).
Proof.
  unfold paymentSuccessful.members, eventIdentfier.members. cbn [eventIdentfier.Event].
  intros Hp.
  apply bind_Ok_inv in Hp as (ev & -> & Hp).
  apply bind_Ok_inv in Hp as (d & _ & [= <-]).
  reflexivity.
Qed.

Lemma pending_event_agrees `{Platform} (v : json) (p : paymentPending.t) :
  Unmarshal paymentPending.members v paymentPending.zero = Ok p ->
  Unmarshal eventIdentfier.members v eventIdentfier.zero
  = Ok (eventIdentfier.mk (paymentPending.Event p)).
Proof.
  unfold Unmarshal, storeStruct. destruct v; try discriminate.
  - intros [= <-]. reflexivity.
  - apply pending_event_members.
Qed.

Lemma successful_event_agrees `{Platform} (v : json) (p : paymentSuccessful.t) :
  Unmarshal paymentSuccessful.members v paymentSuccessful.zero = Ok p ->
  Unmarshal eventIdentfier.members v eventIdentfier.zero
  = Ok (eventIdentfier.mk (paymentSuccessful.Event p)).
Proof.
  unfold Unmarshal, storeStruct. destruct v; try discriminate.
  - intros [= <-]. reflexivity.
  - apply successful_event_members.
Qed.

Lemma eqb_kindName (s : string) (k : Kind) :
  s = kindName k ->
  String.eqb s "paymentrequest.pending" = match k with Pending => true | Successful => false end
  /\ String.eqb s "paymentrequest.success" = match k with Pending => false | Successful => true end.
Proof. intros ->. destruct k; split; reflexivity. Qed.

Lemma eqb_false_ne (s t : string) : s <> t -> String.eqb s t = false.
Proof. intros Hne. apply String.eqb_neq. exact Hne. Qed.

Lemma isOk_false {A : Type} (m : result A) : isOk m = false -> exists e, m = Err e.
Proof. destruct m; [discriminate|eauto]. Qed.

Lemma isOk_true {A : Type} (m : result A) : isOk m = true -> exists a, m = Ok a.
Proof. destruct m; [eauto|discriminate]. Qed.

(** ** Fields read off the document *)

Lemma memberValues_cons (name : string) (key : jstring) (v : json)
    (ms : list (jstring * json)) :
  memberValues name ((key, v) :: ms) =
    if fieldMatch name key then v :: memberValues name ms else memberValues name ms.
Proof.
  unfold memberValues. cbn [filter list_filter fst].
  destruct (decide (fieldMatch name key)) as [Hm|Hm].
  - destruct (fieldMatch name key); [reflexivity|contradiction].
  - destruct (fieldMatch name key); [exfalso; apply Hm; exact I|reflexivity].
Qed.

Lemma last_cons_default {A : Type} (x : A) (xs : list A) (d : A) :
  List.last (x :: xs) d = List.last xs x.
Proof.
  revert x d. induction xs as [|y ys IH]; intros x d; [reflexivity|].
  change (List.last (x :: y :: ys) d) with (List.last (y :: ys) d).
  rewrite (IH y d), (IH y x). reflexivity.
Qed.

(** A string field after an object is decoded: the last string among
    the members that name it, its old value when there is none; the
    decoding fails when such a member holds anything but a string or
    null. *)
Lemma fieldValue_string (name : string) (ms : list (jstring * json)) (old : string) :
  fieldValue name storeString old ms =
    if forallb isStringOrNull (memberValues name ms)
    then Ok (List.last (stringsOf (memberValues name ms)) old)
    else Err UnmarshalError.
Proof.
  revert old. induction ms as [|[key v] ms IH]; intros old; [reflexivity|].
  cbn [fieldValue]. rewrite memberValues_cons.
  destruct (fieldMatch name key); [|apply IH].
  destruct v; try reflexivity.
  - cbn [storeString mbind result_bind forallb isStringOrNull andb].
    rewrite IH. reflexivity.
  - cbn [storeString mbind result_bind forallb isStringOrNull andb].
    rewrite IH. destruct (forallb isStringOrNull (memberValues name ms)); [|reflexivity].
    change (stringsOf (JStr s :: memberValues name ms))
      with (unquote s :: stringsOf (memberValues name ms)).
    rewrite last_cons_default. reflexivity.
Qed.

Lemma last_app_default {A : Type} (xs ys : list A) (d : A) :
  List.last (xs ++ ys) d = List.last ys (List.last xs d).
Proof.
  revert d. induction xs as [|x xs IH]; intros d; [reflexivity|].
  cbn [app]. rewrite !last_cons_default. apply IH.
Qed.

Lemma memberValues_app (name : string) (ms ms' : list (jstring * json)) :
  memberValues name (ms ++ ms') = memberValues name ms ++ memberValues name ms'.
Proof.
  induction ms as [|[key v] ms IH]; [reflexivity|].
  cbn [app]. rewrite !memberValues_cons.
  destruct (fieldMatch name key); cbn [app]; rewrite IH; reflexivity.
Qed.

Lemma intsOf_app (vs ws : list json) : intsOf (vs ++ ws) = intsOf vs ++ intsOf ws.
Proof. apply omap_app. Qed.

Lemma stringsOf_app (vs ws : list json) : stringsOf (vs ++ ws) = stringsOf vs ++ stringsOf ws.
Proof. apply omap_app. Qed.

(** An int field after an object is decoded: the last integer among
    the members that name it. *)
Lemma fieldValue_int (name : string) (ms : list (jstring * json)) (old n : Z) :
  fieldValue name storeInt old ms = Ok n ->
  n = List.last (intsOf (memberValues name ms)) old.
Proof.
  revert old. induction ms as [|[key v] ms IH]; intros old.
  - intros [= <-]. reflexivity.
  - cbn [fieldValue]. rewrite memberValues_cons.
    destruct (fieldMatch name key); [|apply IH].
    intros Hb. apply bind_Ok_inv in Hb as (x & Hx & Hn). apply IH in Hn.
    destruct v; try discriminate.
    + injection Hx as <-. exact Hn.
    + cbn [storeInt] in Hx. unfold intsOf. cbn [omap list_omap].
      destruct (parseInt lit) as [m|]; [|discriminate].
      injection Hx as <-. fold intsOf. cbn [mbind option_bind]. rewrite last_cons_default. exact Hn.
Qed.

Lemma fieldValue_string_Ok (name : string) (ms : list (jstring * json)) (old s : string) :
  fieldValue name storeString old ms = Ok s ->
  s = List.last (stringsOf (memberValues name ms)) old.
Proof.
  rewrite fieldValue_string.
  destruct (forallb isStringOrNull (memberValues name ms)); [|discriminate].
  intros [= <-]. reflexivity.
Qed.

Lemma dataMembersOf_cons (key : jstring) (x : json) (ms : list (jstring * json)) :
  dataMembersOf ((key, x) :: ms) =
    if fieldMatch "data" key
    then match x with JObj dms => dms | _ => [] end ++ dataMembersOf ms
    else dataMembersOf ms.
Proof.
  unfold dataMembersOf. rewrite memberValues_cons.
  destruct (fieldMatch "data" key); reflexivity.
Qed.

(** Takes a successful chain of field decodings apart. *)
Ltac open_chain Hd :=
  repeat (let x := fresh "x" in let Hx := fresh "Hx" in
          apply bind_Ok_inv in Hd as (x & Hx & Hd)).

Section DecodedFields.
Context `{Platform}.

Lemma pending_dataMembers_read (old d : paymentPending.dataStruct)
    (dms : list (jstring * json)) :
  paymentPending.dataMembers old dms = Ok d ->
  paymentPending.Amount d =
    List.last (intsOf (memberValues "amount" dms)) (paymentPending.Amount old).
Proof.
  intros Hd. unfold paymentPending.dataMembers in Hd. open_chain Hd.
  injection Hd as <-. cbn [paymentPending.Amount].
  apply (fieldValue_int _ _ _ _ Hx1).
Qed.

Lemma successful_dataMembers_read (old d : paymentSuccessful.dataStruct)
    (dms : list (jstring * json)) :
  paymentSuccessful.dataMembers old dms = Ok d ->
  paymentSuccessful.Description d =
    List.last (stringsOf (memberValues "description" dms)) (paymentSuccessful.Description old).
Proof.
  intros Hd. unfold paymentSuccessful.dataMembers in Hd. open_chain Hd.
  injection Hd as <-. cbn [paymentSuccessful.Description].
  apply (fieldValue_string_Ok _ _ _ _ Hx6).
Qed.

Lemma pending_data_read (ms : list (jstring * json)) (old d : paymentPending.dataStruct) :
  fieldValue "data" (storeStruct paymentPending.dataMembers) old ms = Ok d ->
  paymentPending.Amount d =
    List.last (intsOf (memberValues "amount" (dataMembersOf ms))) (paymentPending.Amount old).
Proof.
  revert old. induction ms as [|[key x] ms IH]; intros old Hd.
  - injection Hd as <-. reflexivity.
  - cbn [fieldValue] in Hd. rewrite dataMembersOf_cons.
    destruct (fieldMatch "data" key); [|exact (IH old Hd)].
    apply bind_Ok_inv in Hd as (d1 & Hd1 & Hd). rewrite (IH d1 Hd).
    destruct x; try discriminate.
    + injection Hd1 as <-. reflexivity.
    + rewrite memberValues_app, intsOf_app, last_app_default.
      rewrite (pending_dataMembers_read _ _ _ Hd1). reflexivity.
Qed.

Lemma successful_data_read (ms : list (jstring * json))
    (old d : paymentSuccessful.dataStruct) :
  fieldValue "data" (storeStruct paymentSuccessful.dataMembers) old ms = Ok d ->
  paymentSuccessful.Description d =
    List.last (stringsOf (memberValues "description" (dataMembersOf ms)))
      (paymentSuccessful.Description old).
Proof.
  revert old. induction ms as [|[key x] ms IH]; intros old Hd.
  - injection Hd as <-. reflexivity.
  - cbn [fieldValue] in Hd. rewrite dataMembersOf_cons.
    destruct (fieldMatch "data" key); [|exact (IH old Hd)].
    apply bind_Ok_inv in Hd as (d1 & Hd1 & Hd). rewrite (IH d1 Hd).
    destruct x; try discriminate.
    + injection Hd1 as <-. reflexivity.
    + rewrite memberValues_app, stringsOf_app, last_app_default.
      rewrite (successful_dataMembers_read _ _ _ Hd1). reflexivity.
Qed.

(** What the pending struct holds of a document: the last string of an
    event member, the last integer of an amount member of a data object. *)
Lemma pending_fields_of_document (v : json) (p : paymentPending.t) :
  Unmarshal paymentPending.members v paymentPending.zero = Ok p ->
  paymentPending.Event p <> EmptyString ->
  exists ms, v = JObj ms
    /\ paymentPending.Event p = List.last (stringsOf (memberValues "event" ms)) EmptyString
    /\ paymentPending.Amount (paymentPending.Data p) =
         List.last (intsOf (memberValues "amount" (dataMembersOf ms))) 0.
Proof.
  unfold Unmarshal, storeStruct. destruct v; try discriminate.
  - intros [= <-] Hne. contradiction Hne. reflexivity.
  - intros Hp _. exists members. split; [reflexivity|].
    unfold paymentPending.members in Hp.
    apply bind_Ok_inv in Hp as (ev & Hev & Hp).
    apply bind_Ok_inv in Hp as (d & Hdata & Hp). injection Hp as <-.
    cbn [paymentPending.Event paymentPending.Data]. split.
    + apply (fieldValue_string_Ok _ _ _ _ Hev).
    + apply (pending_data_read _ _ _ Hdata).
Qed.

Lemma successful_fields_of_document (v : json) (p : paymentSuccessful.t) :
  Unmarshal paymentSuccessful.members v paymentSuccessful.zero = Ok p ->
  paymentSuccessful.Event p <> EmptyString ->
  exists ms, v = JObj ms
    /\ paymentSuccessful.Event p = List.last (stringsOf (memberValues "event" ms)) EmptyString
    /\ paymentSuccessful.Description (paymentSuccessful.Data p) =
         List.last (stringsOf (memberValues "description" (dataMembersOf ms))) EmptyString.
Proof.
  unfold Unmarshal, storeStruct. destruct v; try discriminate.
  - intros [= <-] Hne. contradiction Hne. reflexivity.
  - intros Hp _. exists members. split; [reflexivity|].
    unfold paymentSuccessful.members in Hp.
    apply bind_Ok_inv in Hp as (ev & Hev & Hp).
    apply bind_Ok_inv in Hp as (d & Hdata & Hp). injection Hp as <-.
    cbn [paymentSuccessful.Event paymentSuccessful.Data]. split.
    + apply (fieldValue_string_Ok _ _ _ _ Hev).
    + apply (successful_data_read _ _ _ Hdata).
Qed.

End DecodedFields.

(** ** The two recognized kinds *)

(** The pending path of the handler, on a connection that takes the
    write. *)
Lemma handle_pending `{Platform} (l : Logger) (r : Request)
    (v : json) (p : paymentPending.t) :
  Decode (Body r) = Ok v ->
  Unmarshal paymentPending.members v paymentPending.zero = Ok p ->
  paymentPending.Event p = "paymentrequest.pending" ->
  HandleDynamicAPI l (newResponseWriter false) r =
    (l ++ [connected; hookRecord Pending;
           mkRecord INFO "pending response data unmarshalled successfully"
             [("pending ID", AInt (paymentPending.ID (paymentPending.Data p)));
              ("pending amount", AInt (paymentPending.Amount (paymentPending.Data p)))]],
     mkResponseWriter jsonHeader (Some 200)
       [ {[ "event type" := VString (paymentPending.Event p);
            "amount" := VInt (paymentPending.Amount (paymentPending.Data p)) ]} ] false).
Proof.
  intros Hd Hp Hev. unfold HandleDynamicAPI.
  rewrite Hd, (pending_event_agrees _ _ Hp), Hp.
  cbn [eventIdentfier.Event]. rewrite Hev.
  unfold Info, connected, hookRecord. cbn [kindName hookMsg String.eqb].
  cbn. rewrite <- !app_assoc. reflexivity.
Qed.

(** The success path of the handler, on a connection that takes the
    write. *)
Lemma handle_successful `{Platform} (l : Logger) (r : Request)
    (v : json) (p : paymentSuccessful.t) :
  Decode (Body r) = Ok v ->
  Unmarshal paymentSuccessful.members v paymentSuccessful.zero = Ok p ->
  paymentSuccessful.Event p = "paymentrequest.success" ->
  HandleDynamicAPI l (newResponseWriter false) r =
    (l ++ [connected; hookRecord Successful;
           mkRecord INFO "success response data unmarshalled successfully"
             [("success ID", AInt (paymentSuccessful.ID (paymentSuccessful.Data p)));
              ("success amount",
               AInt (paymentSuccessful.Amount (paymentSuccessful.Data p)))]],
     mkResponseWriter jsonHeader (Some 200)
       [ {[ "event type" := VString (paymentSuccessful.Event p);
            "description" :=
              VString (paymentSuccessful.Description (paymentSuccessful.Data p)) ]} ] false).
Proof.
  intros Hd Hp Hev. unfold HandleDynamicAPI.
  rewrite Hd, (successful_event_agrees _ _ Hp), Hp.
  cbn [eventIdentfier.Event]. rewrite Hev.
  unfold Info, connected, hookRecord. cbn [kindName hookMsg String.eqb].
  cbn. rewrite <- !app_assoc. reflexivity.
Qed.

(** C1.  A body that is valid JSON, that decodes without error into the
    pending payment struct and whose event is "paymentrequest.pending"
    is answered with status 200, the JSON content type and one document,
    the map of "event type" to the event string of the payload and of
    "amount" to its data.amount integer (on a connection that takes the
    write).  The two are read off the document as json.Unmarshal reads
    them: the last string of a member named event, the last integer of
    a member named amount in a data object. *)
Theorem pending_payload_response `{Platform} (l : Logger) (r : Request)
    (v : json) (p : paymentPending.t) :
  document (Body r) = Some v ->
  Unmarshal paymentPending.members v paymentPending.zero = Ok p ->
  paymentPending.Event p = "paymentrequest.pending" ->
  finish (HandleDynamicAPI l (newResponseWriter false) r).2 =
    mkResponse 200 jsonHeader
      [ {[ "event type" := VString (paymentPending.Event p);
           "amount" := VInt (paymentPending.Amount (paymentPending.Data p)) ]} ]
  /\ exists ms, v = JObj ms
       /\ paymentPending.Event p =
            List.last (stringsOf (memberValues "event" ms)) EmptyString
       /\ paymentPending.Amount (paymentPending.Data p) =
            List.last (intsOf (memberValues "amount" (dataMembersOf ms))) 0.
Proof.
  intros Hdoc Hp Hev. split.
  - rewrite (handle_pending l r v p (document_Decode _ _ Hdoc) Hp Hev). reflexivity.
  - apply (pending_fields_of_document v p Hp). rewrite Hev. discriminate.
Qed.

Lemma pending_payload_response_witness :
  finish (HandleDynamicAPI (H := demoPlatform) [] (newResponseWriter false)
            (post "{'event':'paymentrequest.pending','data':{'id':1,'amount':5000}}")).2 =
    mkResponse 200 jsonHeader
      [ {[ "event type" := VString "paymentrequest.pending"; "amount" := VInt 5000 ]} ].
Proof.
  apply (proj1 (pending_payload_response (H := demoPlatform) []
            (post "{'event':'paymentrequest.pending','data':{'id':1,'amount':5000}}")
            (JObj [(plain "event", JStr (plain "paymentrequest.pending"));
                   (plain "data", JObj [(plain "id", JNum "1");
                                        (plain "amount", JNum "5000")])])
            (paymentPending.mk "paymentrequest.pending"
               (paymentPending.mkData 1 "" 5000 "" JNull false JNull "" JNull [] []
                  "" "" false JNull JNull [] "" 0 zeroTime))
            ltac:(vm_compute; reflexivity) ltac:(vm_compute; reflexivity)
            ltac:(reflexivity))).
Defined.

(** C2.  A body that is valid JSON, that decodes without error into the
    successful payment struct and whose event is "paymentrequest.success"
    is answered with status 200, the JSON content type and one document,
    the map of "event type" to the event string of the payload and of
    "description" to its data.description string (on a connection that
    takes the write).  The two are read off the document as
    json.Unmarshal reads them: the last string of a member named event,
    the last string of a member named description in a data object. *)
Theorem successful_payload_response `{Platform} (l : Logger) (r : Request)
    (v : json) (p : paymentSuccessful.t) :
  document (Body r) = Some v ->
  Unmarshal paymentSuccessful.members v paymentSuccessful.zero = Ok p ->
  paymentSuccessful.Event p = "paymentrequest.success" ->
  finish (HandleDynamicAPI l (newResponseWriter false) r).2 =
    mkResponse 200 jsonHeader
      [ {[ "event type" := VString (paymentSuccessful.Event p);
           "description" :=
             VString (paymentSuccessful.Description (paymentSuccessful.Data p)) ]} ]
  /\ exists ms, v = JObj ms
       /\ paymentSuccessful.Event p =
            List.last (stringsOf (memberValues "event" ms)) EmptyString
       /\ paymentSuccessful.Description (paymentSuccessful.Data p) =
            List.last (stringsOf (memberValues "description" (dataMembersOf ms)))
              EmptyString.
Proof.
  intros Hdoc Hp Hev. split.
  - rewrite (handle_successful l r v p (document_Decode _ _ Hdoc) Hp Hev). reflexivity.
  - apply (successful_fields_of_document v p Hp). rewrite Hev. discriminate.
Qed.

Lemma successful_payload_response_witness :
  finish (HandleDynamicAPI (H := demoPlatform) [] (newResponseWriter false)
            (post "{'event':'paymentrequest.success','data':{'id':2,'description':'Invoice #2'}}")).2 =
    mkResponse 200 jsonHeader
      [ {[ "event type" := VString "paymentrequest.success";
           "description" := VString "Invoice #2" ]} ].
Proof.
  apply (proj1 (successful_payload_response (H := demoPlatform) []
            (post "{'event':'paymentrequest.success','data':{'id':2,'description':'Invoice #2'}}")
            (JObj [(plain "event", JStr (plain "paymentrequest.success"));
                   (plain "data", JObj [(plain "id", JNum "2");
                                        (plain "description", JStr (plain "Invoice #2"))])])
            (paymentSuccessful.mk "paymentrequest.success"
               (paymentSuccessful.mkData 2 "" 0 "" JNull false JNull "Invoice #2" JNull [] []
                  "" "" false zeroTime JNull [] "" 0 zeroTime))
            ltac:(vm_compute; reflexivity) ltac:(vm_compute; reflexivity)
            ltac:(reflexivity))).
Defined.

(** ** Unrecognized events and hard failures *)

(** The Content-Type header is added on no path but the two on which
    the payload has decoded under the schema of its kind. *)
Lemma content_type_only_on_success `{Platform} (l : Logger) (w : ResponseWriter)
    (r : Request) :
  header w !! "Content-Type" = None ->
  header (HandleDynamicAPI l w r).2 !! "Content-Type" <> None ->
  exists v e k,
    Decode (Body r) = Ok v
    /\ Unmarshal eventIdentfier.members v eventIdentfier.zero = Ok e
    /\ eventIdentfier.Event e = kindName k
    /\ decodesAs k v = true.
Proof.
  intros Hw. unfold HandleDynamicAPI.
  destruct (Decode (Body r)) as [v|err]; [|intros Hc; contradiction].
  destruct (Unmarshal eventIdentfier.members v eventIdentfier.zero) as [e|err] eqn:He;
    [|intros Hc; contradiction].
  destruct (String.eqb (eventIdentfier.Event e) "paymentrequest.pending") eqn:E1.
  - apply String.eqb_eq in E1.
    destruct (Unmarshal paymentPending.members v paymentPending.zero) as [p|err] eqn:Hp;
      [|intros Hc; contradiction].
    intros _. exists v, e, Pending. cbn. rewrite Hp. auto.
  - destruct (String.eqb (eventIdentfier.Event e) "paymentrequest.success") eqn:E2.
    + apply String.eqb_eq in E2.
      destruct (Unmarshal paymentSuccessful.members v paymentSuccessful.zero) as [p|err] eqn:Hp;
        [|intros Hc; contradiction].
      intros _. exists v, e, Successful. cbn. rewrite Hp. auto.
    + cbn. unfold WriteHeader. destruct (status w); intros Hc; contradiction.
Qed.

(** C3, as the code has it.  A body that is valid JSON, that unmarshals
    without error into the event envelope and whose event is neither of
    the two recognized names is answered with status 500, no document
    and no Content-Type header; and on any request the Content-Type
    header is set only where the event is recognized and the payload has
    decoded under its schema. *)
Theorem unrecognized_event_response `{Platform} :
  (forall (l : Logger) (failing : bool) (r : Request) (v : json) (e : eventIdentfier.t),
      document (Body r) = Some v ->
      Unmarshal eventIdentfier.members v eventIdentfier.zero = Ok e ->
      eventIdentfier.Event e <> "paymentrequest.pending" ->
      eventIdentfier.Event e <> "paymentrequest.success" ->
      finish (HandleDynamicAPI l (newResponseWriter failing) r).2 = mkResponse 500 ∅ [])
  /\ (forall (l : Logger) (failing : bool) (r : Request),
        Header (finish (HandleDynamicAPI l (newResponseWriter failing) r).2)
          !! "Content-Type" <> None ->
        exists v e k,
          Decode (Body r) = Ok v
          /\ Unmarshal eventIdentfier.members v eventIdentfier.zero = Ok e
          /\ eventIdentfier.Event e = kindName k
          /\ decodesAs k v = true).
Proof.
  split.
  - intros l failing r v e Hdoc He H1 H2. unfold HandleDynamicAPI.
    rewrite (document_Decode _ _ Hdoc), He.
    rewrite (eqb_false_ne _ _ H1), (eqb_false_ne _ _ H2). reflexivity.
  - intros l failing r. apply content_type_only_on_success. reflexivity.
Qed.

Lemma unrecognized_event_response_witness :
  finish (HandleDynamicAPI (H := demoPlatform) [] (newResponseWriter false)
            (post "{'event':'unknown.kind'}")).2 = mkResponse 500 ∅ [].
Proof.
  apply (proj1 (unrecognized_event_response (H := demoPlatform)) [] false
            (post "{'event':'unknown.kind'}")
            (JObj [(plain "event", JStr (plain "unknown.kind"))])
            (eventIdentfier.mk "unknown.kind")
            ltac:(vm_compute; reflexivity) ltac:(vm_compute; reflexivity)
            ltac:(discriminate) ltac:(discriminate)).
Defined.

(** C3 as stated fails: the body is valid JSON and its event member, the
    number 5, is neither of the two names, yet the answer is not 500 but
    the default 200. *)
Lemma unrecognized_event_counterexample :
  document (Body (post "{'event':5}")) = Some (JObj [(plain "event", JNum "5")])
  /\ finish (HandleDynamicAPI (H := demoPlatform) [] (newResponseWriter false)
               (post "{'event':5}")).2 = mkResponse 200 ∅ []
  /\ StatusCode (finish (HandleDynamicAPI (H := demoPlatform) [] (newResponseWriter false)
               (post "{'event':5}")).2) <> 500.
Proof. split; [|split]; [vm_compute; reflexivity .. | vm_compute; discriminate]. Qed.

(** C4, as the code has it.  When no JSON value can be read from the
    front of the body, the handler logs the error and returns: the
    writer is left as it was, so a fresh one answers 200 with no header
    and no document.  Every such body is not valid JSON. *)
Theorem malformed_payload_aborts `{Platform} (l : Logger) (w : ResponseWriter)
    (r : Request) (err : error) :
  Decode (Body r) = Err err ->
  HandleDynamicAPI l w r =
    (l ++ [connected;
           mkRecord ERROR "error decoding json response" [("error context", AError err)]], w)
  /\ Scanner.valid (Body r) = false
  /\ forall failing,
       finish (HandleDynamicAPI l (newResponseWriter failing) r).2 = mkResponse 200 ∅ [].
Proof.
  intros Hd. split; [|split].
  - unfold HandleDynamicAPI. rewrite Hd. unfold Info, Error, connected.
    rewrite <- app_assoc. reflexivity.
  - apply (Decode_fails_invalid _ _ Hd).
  - intros failing. unfold HandleDynamicAPI. rewrite Hd. reflexivity.
Qed.

Lemma malformed_payload_aborts_witness :
  finish (HandleDynamicAPI (H := demoPlatform) [] (newResponseWriter false)
            (post "not json at all")).2 = mkResponse 200 ∅ [].
Proof.
  apply (proj2 (proj2 (malformed_payload_aborts (H := demoPlatform) []
            (newResponseWriter false) (post "not json at all") DecodeError
            ltac:(vm_compute; reflexivity))) false).
Defined.

(** C4 as stated fails: the body is not valid JSON, because of what
    follows its first value, yet a document is written in answer. *)
Lemma malformed_payload_counterexample :
  Scanner.valid (Body (post "{'event':'paymentrequest.pending'} trailing")) = false
  /\ finish (HandleDynamicAPI (H := demoPlatform) [] (newResponseWriter false)
               (post "{'event':'paymentrequest.pending'} trailing")).2 =
     mkResponse 200 jsonHeader
       [ {[ "event type" := VString "paymentrequest.pending"; "amount" := VInt 0 ]} ].
Proof. split; vm_compute; reflexivity. Qed.

(** C5.  A body that is valid JSON, whose event names one of the two
    recognized kinds and that fails to decode under the schema of that
    kind makes the handler log the error and return: nothing is written,
    the writer is left as it was (no header, no status, no document), so
    a fresh one answers the default 200 with nothing in it. *)
Theorem schema_mismatch_aborts `{Platform} (l : Logger) (w : ResponseWriter)
    (r : Request) (v : json) (e : eventIdentfier.t) (k : Kind) :
  document (Body r) = Some v ->
  Unmarshal eventIdentfier.members v eventIdentfier.zero = Ok e ->
  eventIdentfier.Event e = kindName k ->
  decodesAs k v = false ->
  (exists err,
     HandleDynamicAPI l w r =
       (l ++ [connected; hookRecord k;
              mkRecord ERROR (mismatchMsg k) [("error context", AError err)]], w))
  /\ forall failing,
       finish (HandleDynamicAPI l (newResponseWriter failing) r).2 = mkResponse 200 ∅ [].
Proof.
  intros Hdoc He Hk Hno.
  destruct (eqb_kindName _ _ Hk) as [E1 E2].
  destruct k; cbn in Hno; apply isOk_false in Hno as [err Herr].
  - split.
    + exists err. unfold HandleDynamicAPI.
      rewrite (document_Decode _ _ Hdoc), He, E1, Herr.
      unfold Info, Error, connected, hookRecord. rewrite Hk.
      rewrite <- !app_assoc. reflexivity.
    + intros failing. unfold HandleDynamicAPI.
      rewrite (document_Decode _ _ Hdoc), He, E1, Herr. reflexivity.
  - split.
    + exists err. unfold HandleDynamicAPI.
      rewrite (document_Decode _ _ Hdoc), He, E1, E2, Herr.
      unfold Info, Error, connected, hookRecord. rewrite Hk.
      rewrite <- !app_assoc. reflexivity.
    + intros failing. unfold HandleDynamicAPI.
      rewrite (document_Decode _ _ Hdoc), He, E1, E2, Herr. reflexivity.
Qed.

Lemma schema_mismatch_aborts_witness :
  finish (HandleDynamicAPI (H := demoPlatform) [] (newResponseWriter false)
            (post "{'event':'paymentrequest.pending','data':{'amount':'5000'}}")).2
  = mkResponse 200 ∅ [].
Proof.
  apply (proj2 (schema_mismatch_aborts (H := demoPlatform) [] (newResponseWriter false)
            (post "{'event':'paymentrequest.pending','data':{'amount':'5000'}}")
            (JObj [(plain "event", JStr (plain "paymentrequest.pending"));
                   (plain "data", JObj [(plain "amount", JStr (plain "5000"))])])
            (eventIdentfier.mk "paymentrequest.pending") Pending
            ltac:(vm_compute; reflexivity) ltac:(vm_compute; reflexivity)
            ltac:(reflexivity) ltac:(vm_compute; reflexivity)) false).
Defined.

(** ** The event identifier *)

Lemma Unmarshal_envelope (v : json) :
  Unmarshal eventIdentfier.members v eventIdentfier.zero =
    match envelopeEvent v with
    | Some e => Ok (eventIdentfier.mk e)
    | None => Err UnmarshalError
    end.
Proof.
  destruct v; try reflexivity.
  unfold Unmarshal, storeStruct, eventIdentfier.members, envelopeEvent.
  rewrite fieldValue_string. cbn [eventIdentfier.Event eventIdentfier.zero].
  destruct (forallb isStringOrNull (memberValues "event" members)); reflexivity.
Qed.

(** C6, as the code has it.  On a body that is valid JSON the decoder
    does not fail, and the identifier is what [envelopeEvent] says: the
    event string, or the empty string when no member gives one, and the
    empty string takes the unrecognized path (status 500).  But a valid
    document that is not an object or null, or whose event member holds
    something other than a string or null, is refused by the unmarshal,
    and the handler then fails hard: it logs the error and returns with
    the writer untouched. *)
Theorem identifier_of_valid_json `{Platform} (l : Logger) (w : ResponseWriter)
    (r : Request) (v : json) :
  document (Body r) = Some v ->
  Decode (Body r) = Ok v
  /\ Unmarshal eventIdentfier.members v eventIdentfier.zero =
       match envelopeEvent v with
       | Some e => Ok (eventIdentfier.mk e)
       | None => Err UnmarshalError
       end
  /\ (envelopeEvent v = Some EmptyString ->
      forall failing,
        finish (HandleDynamicAPI l (newResponseWriter failing) r).2 = mkResponse 500 ∅ [])
  /\ (envelopeEvent v = None ->
      HandleDynamicAPI l w r =
        (l ++ [connected;
               mkRecord ERROR "error unmarshalling json data message"
                 [("error context", AError UnmarshalError)]], w)).
Proof.
  intros Hdoc. pose proof (document_Decode _ _ Hdoc) as Hd.
  split; [exact Hd|]. split; [apply Unmarshal_envelope|]. split.
  - intros He failing. unfold HandleDynamicAPI.
    rewrite Hd, Unmarshal_envelope, He. reflexivity.
  - intros He. unfold HandleDynamicAPI.
    rewrite Hd, Unmarshal_envelope, He.
    unfold Info, Error, connected. rewrite <- app_assoc. reflexivity.
Qed.

Lemma identifier_of_valid_json_witness :
  Unmarshal eventIdentfier.members
    (JObj [(plain "event", JStr (plain "paymentrequest.pending"))]) eventIdentfier.zero
  = Ok (eventIdentfier.mk "paymentrequest.pending").
Proof.
  apply (proj1 (proj2 (identifier_of_valid_json (H := demoPlatform) []
           (newResponseWriter false) (post "{'event':'paymentrequest.pending'}")
           (JObj [(plain "event", JStr (plain "paymentrequest.pending"))])
           ltac:(vm_compute; reflexivity)))).
Defined.

(** C6 as stated fails: the body is valid JSON, yet the identifier is
    not extracted as a string, empty or not; the unmarshal fails and the
    handler returns as on a hard failure, with the default status 200
    and not the 500 of the unrecognized path. *)
Lemma identifier_counterexample :
  Scanner.valid (Body (post "[]")) = true
  /\ Unmarshal eventIdentfier.members (JArr []) eventIdentfier.zero = Err UnmarshalError
  /\ HandleDynamicAPI (H := demoPlatform) [] (newResponseWriter false) (post "[]") =
       ([connected (H := demoPlatform);
         mkRecord ERROR "error unmarshalling json data message"
           [("error context", AError UnmarshalError)]],
        newResponseWriter false)
  /\ finish (HandleDynamicAPI (H := demoPlatform) [] (newResponseWriter false)
               (post "[]")).2 = mkResponse 200 ∅ [].
Proof. repeat split; vm_compute; reflexivity. Qed.

(** ** Failure to write the response *)

(** When the write fails on the pending path the failure is logged, the
    handler returns, and the status is the 200 of the path. *)
Lemma pending_write_failure_logged `{Platform} (l : Logger) (r : Request)
    (v : json) (p : paymentPending.t) :
  Decode (Body r) = Ok v ->
  Unmarshal paymentPending.members v paymentPending.zero = Ok p ->
  paymentPending.Event p = "paymentrequest.pending" ->
  HandleDynamicAPI l (newResponseWriter true) r =
    (l ++ [connected; hookRecord Pending;
           mkRecord ERROR "error encoding data to send as response"
             [("error context", AError WriteError)]],
     mkResponseWriter jsonHeader (Some 200) [] true).
Proof.
  intros Hd Hp Hev. unfold HandleDynamicAPI.
  rewrite Hd, (pending_event_agrees _ _ Hp), Hp.
  cbn [eventIdentfier.Event]. rewrite Hev.
  unfold Info, Error, connected, hookRecord. cbn [kindName hookMsg String.eqb].
  cbn. rewrite <- !app_assoc. reflexivity.
Qed.

(** When the write fails on the success path the handler returns with
    the status 200 of the path, and nothing is logged about the
    failure: the log ends with the hook record. *)
Lemma successful_write_failure_silent `{Platform} (l : Logger) (r : Request)
    (v : json) (p : paymentSuccessful.t) :
  Decode (Body r) = Ok v ->
  Unmarshal paymentSuccessful.members v paymentSuccessful.zero = Ok p ->
  paymentSuccessful.Event p = "paymentrequest.success" ->
  HandleDynamicAPI l (newResponseWriter true) r =
    (l ++ [connected; hookRecord Successful],
     mkResponseWriter jsonHeader (Some 200) [] true).
Proof.
  intros Hd Hp Hev. unfold HandleDynamicAPI.
  rewrite Hd, (successful_event_agrees _ _ Hp), Hp.
  cbn [eventIdentfier.Event]. rewrite Hev.
  unfold Info, Error, connected, hookRecord. cbn [kindName hookMsg String.eqb].
  cbn. rewrite <- !app_assoc. reflexivity.
Qed.

(** C7, at the failing input.  A success event arrives on a connection
    that refuses the write: the handler returns with status 200, and its
    log holds the two INFO records of the path and no record of the
    failure. *)
Theorem success_write_failure_not_logged :
  let out := HandleDynamicAPI (H := demoPlatform) [] (newResponseWriter true)
               (post "{'event':'paymentrequest.success','data':{'description':'Invoice #2'}}") in
  out.1 = [connected (H := demoPlatform); hookRecord Successful]
  /\ Forall (fun rec => level rec = INFO) out.1
  /\ finish out.2 = mkResponse 200 jsonHeader [].
Proof.
  cbv zeta. split; [vm_compute; reflexivity|]. split; [|vm_compute; reflexivity].
  repeat constructor.
Qed.

(** ** The health endpoint *)

(** C8.  Every call of the health endpoint answers status 200 with the
    one document of "data" mapped to "Hello from localhost:3000",
    whatever the request and whatever was logged before; the handler
    leaves the logger as it was, so every call of a sequence gives this
    same answer. *)
Theorem health_idempotent :
  (forall (l : Logger) (r : Request),
      HealthCheck l (newResponseWriter false) r =
        (l, mkResponseWriter ∅ (Some 200)
              [ {[ "data" := VString "Hello from localhost:3000" ]} ] false))
  /\ (forall (l : Logger) (rs : list Request),
        serveAll HealthCheck l rs = (l, map (fun _ => healthResponse) rs))
  /\ (forall (l l' : Logger) (r r' : Request),
        finish (HealthCheck l (newResponseWriter false) r).2 =
        finish (HealthCheck l' (newResponseWriter false) r').2)
  /\ (forall (l : Logger) (failing : bool) (r : Request),
        StatusCode (finish (HealthCheck l (newResponseWriter failing) r).2) = 200).
Proof.
  assert (Hone : forall l r, HealthCheck l (newResponseWriter false) r =
            (l, mkResponseWriter ∅ (Some 200)
                  [ {[ "data" := VString "Hello from localhost:3000" ]} ] false))
    by reflexivity.
  split; [exact Hone|]. split; [|split].
  - intros l rs. revert l. induction rs as [|r rs IH]; intros l; [reflexivity|].
    cbn [serveAll map]. rewrite Hone, IH. reflexivity.
  - intros l l' r r'. rewrite !Hone. reflexivity.
  - intros l [|] r; reflexivity.
Qed.

(** ** One schema at most *)

(** Closes a goal that a message is among concrete ones it differs from. *)
Ltac absurd_member :=
  cbn; let Hin := fresh "Hin" in
  intros Hin; repeat (destruct Hin as [Hin|Hin]; [discriminate|]); contradiction.

Lemma kindName_inj (k k' : Kind) : kindName k = kindName k' -> k = k'.
Proof. destruct k, k'; (reflexivity || discriminate). Qed.

(** The branch of a kind is taken exactly when the event read from the
    envelope of the payload is the name of the kind. *)
Lemma branchTaken_iff `{Platform} (w : ResponseWriter) (r : Request) (k : Kind) :
  branchTaken k (HandleDynamicAPI [] w r).1 <->
  exists v e,
    Decode (Body r) = Ok v
    /\ Unmarshal eventIdentfier.members v eventIdentfier.zero = Ok e
    /\ eventIdentfier.Event e = kindName k.
Proof.
  unfold branchTaken, HandleDynamicAPI.
  destruct (Decode (Body r)) as [v|err].
  2:{ split; [|intros (v & e & [=] & _)].
      destruct k; absurd_member. }
  destruct (Unmarshal eventIdentfier.members v eventIdentfier.zero) as [e|err] eqn:He.
  2:{ split; [|intros (v' & e & [= <-] & He' & _); congruence].
      destruct k; absurd_member. }
  assert (Hinv : forall v' e' (P : Prop),
             Ok v = Ok v' /\ Unmarshal eventIdentfier.members v' eventIdentfier.zero = Ok e' /\ P ->
             e' = e /\ P).
  { intros v' e' P ([= <-] & He' & HP). split; [congruence|exact HP]. }
  destruct (String.eqb (eventIdentfier.Event e) "paymentrequest.pending") eqn:E1.
  - apply String.eqb_eq in E1. split.
    + intros Hin. exists v, e. split; [reflexivity|]. split; [exact He|].
      destruct k; [exact E1|]. exfalso. revert Hin.
      destruct (Unmarshal paymentPending.members v paymentPending.zero) as [p|err];
        [destruct (Encode _ _) as [w0 [u|werr]]|]; absurd_member.
    + intros (v' & e' & Hve). apply Hinv in Hve as [-> Hk].
      destruct k; [|rewrite E1 in Hk; discriminate].
      destruct (Unmarshal paymentPending.members v paymentPending.zero) as [p|err];
        [destruct (Encode _ _) as [w0 [u|werr]]|]; cbn; auto.
  - apply String.eqb_neq in E1.
    destruct (String.eqb (eventIdentfier.Event e) "paymentrequest.success") eqn:E2.
    + apply String.eqb_eq in E2. split.
      * intros Hin. exists v, e. split; [reflexivity|]. split; [exact He|].
        destruct k; [|exact E2]. exfalso. revert Hin.
        destruct (Unmarshal paymentSuccessful.members v paymentSuccessful.zero) as [p|err];
          [destruct (Encode _ _) as [w0 [u|werr]]|]; absurd_member.
      * intros (v' & e' & Hve). apply Hinv in Hve as [-> Hk].
        destruct k; [rewrite E2 in Hk; discriminate|].
        destruct (Unmarshal paymentSuccessful.members v paymentSuccessful.zero) as [p|err];
          [destruct (Encode _ _) as [w0 [u|werr]]|]; cbn; auto.
    + apply String.eqb_neq in E2. split.
      * destruct k; absurd_member.
      * intros (v' & e' & Hve). apply Hinv in Hve as [-> Hk].
        destruct k; cbn in Hk; contradiction.
Qed.

(** Once the event names a kind, the call is made of the decoding of the
    payload under the schema of that kind and of nothing else of the
    payload: two payloads of the kind that decode alike under its schema
    are handled alike. *)
Lemma handler_of_decoding `{Platform} (k : Kind) (l : Logger) (w : ResponseWriter)
    (r r' : Request) (v v' : json) (e e' : eventIdentfier.t) :
  Decode (Body r) = Ok v ->
  Unmarshal eventIdentfier.members v eventIdentfier.zero = Ok e ->
  eventIdentfier.Event e = kindName k ->
  Decode (Body r') = Ok v' ->
  Unmarshal eventIdentfier.members v' eventIdentfier.zero = Ok e' ->
  eventIdentfier.Event e' = kindName k ->
  sameDecoding k v v' ->
  HandleDynamicAPI l w r = HandleDynamicAPI l w r'.
Proof.
  intros Hd He Hk Hd' He' Hk' Hsame. unfold HandleDynamicAPI.
  rewrite Hd, He, Hd', He', Hk, Hk'.
  destruct k; cbn [sameDecoding] in Hsame;
    cbn [kindName String.eqb Ascii.eqb Bool.eqb]; rewrite Hsame; reflexivity.
Qed.

(** Whether a payload of a kind is answered is the verdict of the schema
    of that kind. *)
Lemma handler_of_verdict `{Platform} (k : Kind) (l : Logger) (w : ResponseWriter)
    (failing : bool) (r : Request) (v : json) (e : eventIdentfier.t) :
  Decode (Body r) = Ok v ->
  Unmarshal eventIdentfier.members v eventIdentfier.zero = Ok e ->
  eventIdentfier.Event e = kindName k ->
  (decodesAs k v = true ->
     Header (finish (HandleDynamicAPI l (newResponseWriter failing) r).2) = jsonHeader
     /\ (failing = false ->
         exists d,
           Content (finish (HandleDynamicAPI l (newResponseWriter failing) r).2) = [d]
           /\ d !! "event type" = Some (VString (kindName k))))
  /\ (decodesAs k v = false -> (HandleDynamicAPI l w r).2 = w).
Proof.
  intros Hd He Hk. destruct (eqb_kindName _ _ Hk) as [E1 E2]. split.
  - intros Hyes. unfold HandleDynamicAPI. rewrite Hd, He, E1.
    destruct k; cbn [decodesAs] in Hyes; apply isOk_true in Hyes as [p Hp].
    + rewrite Hp. pose proof (pending_event_agrees _ _ Hp) as Hev.
      rewrite He in Hev. injection Hev as ->. cbn [eventIdentfier.Event] in Hk.
      destruct failing; (split; [reflexivity|]); [discriminate|].
      intros _. eexists. split; [reflexivity|]. rewrite Hk. reflexivity.
    + rewrite E2, Hp. pose proof (successful_event_agrees _ _ Hp) as Hev.
      rewrite He in Hev. injection Hev as ->. cbn [eventIdentfier.Event] in Hk.
      destruct failing; (split; [reflexivity|]); [discriminate|].
      intros _. eexists. split; [reflexivity|]. rewrite Hk. reflexivity.
  - intros Hno. unfold HandleDynamicAPI. rewrite Hd, He, E1.
    destruct k; cbn [decodesAs] in Hno; apply isOk_false in Hno as [err Herr].
    + rewrite Herr. reflexivity.
    + rewrite E2, Herr. reflexivity.
Qed.

(** An event that names no kind takes the default branch, which decodes
    nothing more. *)
Lemma handler_no_kind `{Platform} (l : Logger) (w : ResponseWriter) (r : Request)
    (v : json) (e : eventIdentfier.t) :
  Decode (Body r) = Ok v ->
  Unmarshal eventIdentfier.members v eventIdentfier.zero = Ok e ->
  (forall k, eventIdentfier.Event e <> kindName k) ->
  HandleDynamicAPI l w r =
    (l ++ [connected; noEventRecord (eventIdentfier.Event e)],
     WriteHeader w StatusInternalServerError).
Proof.
  intros Hd He Hno. unfold HandleDynamicAPI. rewrite Hd, He.
  rewrite (eqb_false_ne _ "paymentrequest.pending" (Hno Pending)).
  rewrite (eqb_false_ne _ "paymentrequest.success" (Hno Successful)).
  unfold Info, connected, noEventRecord. rewrite <- app_assoc. reflexivity.
Qed.

(** C9.  The event read from the envelope of a payload selects one of
    the two typed schemas or neither, and the payload is decoded under
    the selected schema only.  The two names differ, so an event names
    one kind at most.  The branch of a kind is taken exactly when the
    event is the name of that kind, so never both branches in one call.
    When the event names a kind, the whole result of the call (records
    logged and response written) is a function of the decoding of the
    payload under the schema of that kind alone: payloads of the kind
    that decode alike under its schema are handled alike, whatever the
    other schema makes of them; the payload is answered with the JSON
    content type and a document exactly when the schema of its kind
    takes it, and the writer is left as it was when that schema refuses
    it.  When the event names no kind, the result is the record of the
    default branch and the status 500, whatever the payload decodes to
    under either schema. *)
Theorem event_selects_one_schema `{Platform} :
  (forall k k' : Kind, kindName k = kindName k' -> k = k')
  /\ (forall (w : ResponseWriter) (r : Request) (k : Kind),
        branchTaken k (HandleDynamicAPI [] w r).1 <->
        exists v e,
          Decode (Body r) = Ok v
          /\ Unmarshal eventIdentfier.members v eventIdentfier.zero = Ok e
          /\ eventIdentfier.Event e = kindName k)
  /\ (forall (w : ResponseWriter) (r : Request),
        ~ (branchTaken Pending (HandleDynamicAPI [] w r).1
           /\ branchTaken Successful (HandleDynamicAPI [] w r).1))
  /\ (forall (k : Kind) (l : Logger) (w : ResponseWriter) (r r' : Request)
             (v v' : json) (e e' : eventIdentfier.t),
        Decode (Body r) = Ok v ->
        Unmarshal eventIdentfier.members v eventIdentfier.zero = Ok e ->
        eventIdentfier.Event e = kindName k ->
        Decode (Body r') = Ok v' ->
        Unmarshal eventIdentfier.members v' eventIdentfier.zero = Ok e' ->
        eventIdentfier.Event e' = kindName k ->
        sameDecoding k v v' ->
        HandleDynamicAPI l w r = HandleDynamicAPI l w r')
  /\ (forall (k : Kind) (l : Logger) (w : ResponseWriter) (failing : bool) (r : Request)
             (v : json) (e : eventIdentfier.t),
        Decode (Body r) = Ok v ->
        Unmarshal eventIdentfier.members v eventIdentfier.zero = Ok e ->
        eventIdentfier.Event e = kindName k ->
        (decodesAs k v = true ->
           Header (finish (HandleDynamicAPI l (newResponseWriter failing) r).2) = jsonHeader
           /\ (failing = false ->
               exists d,
                 Content (finish (HandleDynamicAPI l (newResponseWriter failing) r).2) = [d]
                 /\ d !! "event type" = Some (VString (kindName k))))
        /\ (decodesAs k v = false -> (HandleDynamicAPI l w r).2 = w))
  /\ (forall (l : Logger) (w : ResponseWriter) (r : Request)
             (v : json) (e : eventIdentfier.t),
        Decode (Body r) = Ok v ->
        Unmarshal eventIdentfier.members v eventIdentfier.zero = Ok e ->
        (forall k, eventIdentfier.Event e <> kindName k) ->
        HandleDynamicAPI l w r =
          (l ++ [connected; noEventRecord (eventIdentfier.Event e)],
           WriteHeader w StatusInternalServerError)).
Proof.
  split; [exact kindName_inj|]. split; [exact branchTaken_iff|].
  split; [|split; [exact handler_of_decoding|split;
                   [exact handler_of_verdict|exact handler_no_kind]]].
  intros w r [Hp Hs].
  apply branchTaken_iff in Hp as (v & e & Hd & He & Hk).
  apply branchTaken_iff in Hs as (v' & e' & Hd' & He' & Hk').
  rewrite Hd in Hd'. injection Hd' as <-. rewrite He in He'. injection He' as <-.
  rewrite Hk in Hk'. discriminate.
Qed.

(** Two pending payloads, the first with a paid_at member that holds
    true and then null, the second with no data at all: the successful
    schema refuses the first and takes the second, the pending schema
    decodes both alike, and the handler answers both alike. *)
Lemma event_selects_one_schema_witness :
  decodesAs (H := demoPlatform) Successful
    (JObj [(plain "event", JStr (plain "paymentrequest.pending"));
           (plain "data", JObj [(plain "paid_at", JBool true);
                                (plain "paid_at", JNull)])]) = false
  /\ decodesAs (H := demoPlatform) Successful
       (JObj [(plain "event", JStr (plain "paymentrequest.pending"))]) = true
  /\ HandleDynamicAPI (H := demoPlatform) [] (newResponseWriter false)
       (post "{'event':'paymentrequest.pending','data':{'paid_at':true,'paid_at':null}}")
     = HandleDynamicAPI (H := demoPlatform) [] (newResponseWriter false)
         (post "{'event':'paymentrequest.pending'}").
Proof.
  split; [vm_compute; reflexivity|]. split; [vm_compute; reflexivity|].
  apply (proj1 (proj2 (proj2 (proj2 (event_selects_one_schema (H := demoPlatform)))))
           Pending [] (newResponseWriter false)
           (post "{'event':'paymentrequest.pending','data':{'paid_at':true,'paid_at':null}}")
           (post "{'event':'paymentrequest.pending'}")
           (JObj [(plain "event", JStr (plain "paymentrequest.pending"));
                  (plain "data", JObj [(plain "paid_at", JBool true);
                                       (plain "paid_at", JNull)])])
           (JObj [(plain "event", JStr (plain "paymentrequest.pending"))])
           (eventIdentfier.mk "paymentrequest.pending")
           (eventIdentfier.mk "paymentrequest.pending")
           ltac:(vm_compute; reflexivity) ltac:(vm_compute; reflexivity) ltac:(reflexivity)
           ltac:(vm_compute; reflexivity) ltac:(vm_compute; reflexivity) ltac:(reflexivity)
           ltac:(vm_compute; reflexivity)).
Defined.

(** ** Absent fields and mismatched fields *)

Create HintDb oblivious.

Lemma storeInt_oblivious : oblivious storeInt.
Proof. intros old old' []; reflexivity. Qed.

Lemma storeString_oblivious : oblivious storeString.
Proof. intros old old' []; reflexivity. Qed.

Lemma storeBool_oblivious : oblivious storeBool.
Proof. intros old old' []; reflexivity. Qed.

Lemma storeAny_oblivious `{Platform} : oblivious storeAny.
Proof. intros old old' v; reflexivity. Qed.

Lemma storeSliceAny_oblivious `{Platform} : oblivious storeSliceAny.
Proof. intros old old' []; reflexivity. Qed.

Lemma storeTime_oblivious `{Platform} : oblivious storeTime.
Proof. intros old old' []; reflexivity. Qed.

Lemma storeSlice_oblivious {A : Type} (zero : A) (store : A -> json -> result A) :
  oblivious (storeSlice zero store).
Proof. intros old old' []; reflexivity. Qed.

#[export] Hint Resolve storeInt_oblivious storeString_oblivious storeBool_oblivious
  storeAny_oblivious storeSliceAny_oblivious storeTime_oblivious
  storeSlice_oblivious : oblivious.

(** A field is decoded without error exactly when every member that
    names it holds a value its type takes. *)
Lemma fieldValue_isOk {A : Type} (name : string) (store : A -> json -> result A)
    (zero : A) (ms : list (jstring * json)) (old : A) :
  oblivious store ->
  isOk (fieldValue name store old ms) = forallb (accepts store zero) (memberValues name ms).
Proof.
  intros Hobl. revert old. induction ms as [|[key v] ms IH]; intros old; [reflexivity|].
  cbn [fieldValue]. rewrite memberValues_cons.
  destruct (fieldMatch name key); [|apply IH].
  cbn [forallb]. unfold accepts at 1. rewrite (Hobl zero old v).
  destruct (store old v) as [x|e]; [apply IH|reflexivity].
Qed.

(** A field no member names keeps its old value. *)
Lemma fieldValue_absent {A : Type} (name : string) (store : A -> json -> result A)
    (ms : list (jstring * json)) (old : A) :
  memberValues name ms = [] -> fieldValue name store old ms = Ok old.
Proof.
  induction ms as [|[key v] ms IH]; [reflexivity|].
  rewrite memberValues_cons. cbn [fieldValue].
  destruct (fieldMatch name key); [discriminate|exact IH].
Qed.

(** A struct is decoded without error from null and from the objects
    its members function takes. *)
Lemma storeStruct_oblivious {A : Type} (members : A -> list (jstring * json) -> result A) :
  (forall old old' ms, isOk (members old ms) = isOk (members old' ms)) ->
  oblivious (storeStruct members).
Proof. intros Hm old old' []; try reflexivity. apply Hm. Qed.

(** Steps through the chain of field decodings of a members function,
    pairing each with its entry in the table of fields. *)
Ltac field_chain ms :=
  repeat lazymatch goal with
  | |- isOk (fieldValue ?n ?st ?o ms ≫= _) = (forallb (accepts ?st ?z) (memberValues ?n ms) && _) =>
      rewrite <- (fieldValue_isOk n st z ms o ltac:(eauto with oblivious));
      destruct (fieldValue n st o ms); [cbn [mbind result_bind isOk andb]|reflexivity]
  end.

Section Schemas.
Context `{Platform}.

Lemma pending_dataMembers_isOk (old : paymentPending.dataStruct)
    (ms : list (jstring * json)) :
  isOk (paymentPending.dataMembers old ms) = wellTyped pendingDataFields ms.
Proof.
  unfold paymentPending.dataMembers, wellTyped, pendingDataFields.
  cbn [forallb fst snd]. field_chain ms. reflexivity.
Qed.

Lemma notificationMembers_isOk (old : paymentSuccessful.notification)
    (ms : list (jstring * json)) :
  isOk (paymentSuccessful.notificationMembers old ms) = wellTyped notificationFields ms.
Proof.
  unfold paymentSuccessful.notificationMembers, wellTyped, notificationFields.
  cbn [forallb fst snd]. field_chain ms. reflexivity.
Qed.

Lemma successful_dataMembers_isOk (old : paymentSuccessful.dataStruct)
    (ms : list (jstring * json)) :
  isOk (paymentSuccessful.dataMembers old ms) = wellTyped successfulDataFields ms.
Proof.
  unfold paymentSuccessful.dataMembers, wellTyped, successfulDataFields.
  cbn [forallb fst snd]. field_chain ms. reflexivity.
Qed.

End Schemas.

Lemma forallb_false_ex {A : Type} (f : A -> bool) (xs : list A) :
  forallb f xs = false -> exists x, In x xs /\ f x = false.
Proof.
  induction xs as [|x xs IH]; [discriminate|]. cbn [forallb].
  destruct (f x) eqn:E.
  - intros Hf. destruct (IH Hf) as (y & Hin & Hy). exists y. split; [right; exact Hin|exact Hy].
  - intros _. exists x. split; [left; reflexivity|exact E].
Qed.

Lemma forallb_pointwise {A : Type} (f g : A -> bool) (xs : list A) :
  (forall x, f x = g x) -> forallb f xs = forallb g xs.
Proof.
  intros Hfg. induction xs as [|x xs IH]; [reflexivity|].
  cbn [forallb]. rewrite Hfg, IH. reflexivity.
Qed.

Section AbsentFields.
Context `{Platform}.

Lemma pending_data_isOk (old : paymentPending.dataStruct) (x : json) :
  isOk (storeStruct paymentPending.dataMembers old x) = dataAccepts pendingDataFields x.
Proof. destruct x; try reflexivity. apply pending_dataMembers_isOk. Qed.

Lemma successful_data_isOk (old : paymentSuccessful.dataStruct) (x : json) :
  isOk (storeStruct paymentSuccessful.dataMembers old x) = dataAccepts successfulDataFields x.
Proof. destruct x; try reflexivity. apply successful_dataMembers_isOk. Qed.

Lemma pending_data_oblivious : oblivious (storeStruct paymentPending.dataMembers).
Proof. intros old old' v. rewrite !pending_data_isOk. reflexivity. Qed.

Lemma successful_data_oblivious : oblivious (storeStruct paymentSuccessful.dataMembers).
Proof. intros old old' v. rewrite !successful_data_isOk. reflexivity. Qed.

(** Under a recognized event, the payload decodes under the schema of
    its kind exactly when its data members are acceptable. *)
Lemma decodesAs_data (k : Kind) (ms : list (jstring * json)) :
  forallb isStringOrNull (memberValues "event" ms) = true ->
  decodesAs k (JObj ms) = forallb (dataAccepts (dataFields k)) (memberValues "data" ms).
Proof.
  intros Hev. destruct k; unfold decodesAs, Unmarshal, storeStruct.
  - unfold paymentPending.members. rewrite fieldValue_string, Hev.
    cbn [mbind result_bind].
    transitivity (forallb (accepts (storeStruct paymentPending.dataMembers)
                             paymentPending.zeroData) (memberValues "data" ms)).
    + rewrite <- (fieldValue_isOk "data" _ paymentPending.zeroData ms
                    (paymentPending.Data paymentPending.zero) pending_data_oblivious).
      destruct (fieldValue "data" _ _ ms); reflexivity.
    + apply forallb_pointwise. intros x. apply pending_data_isOk.
  - unfold paymentSuccessful.members. rewrite fieldValue_string, Hev.
    cbn [mbind result_bind].
    transitivity (forallb (accepts (storeStruct paymentSuccessful.dataMembers)
                             paymentSuccessful.zeroData) (memberValues "data" ms)).
    + rewrite <- (fieldValue_isOk "data" _ paymentSuccessful.zeroData ms
                    (paymentSuccessful.Data paymentSuccessful.zero) successful_data_oblivious).
      destruct (fieldValue "data" _ _ ms); reflexivity.
    + apply forallb_pointwise. intros x. apply successful_data_isOk.
Qed.

(** An object without a member naming amount leaves the amount as it
    was; likewise for the description. *)
Lemma pending_dataMembers_amount (old d : paymentPending.dataStruct)
    (dms : list (jstring * json)) :
  paymentPending.dataMembers old dms = Ok d ->
  memberValues "amount" dms = [] ->
  paymentPending.Amount d = paymentPending.Amount old.
Proof.
  intros Hd Habs. unfold paymentPending.dataMembers in Hd. open_chain Hd.
  injection Hd as <-. cbn [paymentPending.Amount].
  rewrite (fieldValue_absent "amount" storeInt dms _ Habs) in Hx1. congruence.
Qed.

Lemma successful_dataMembers_description (old d : paymentSuccessful.dataStruct)
    (dms : list (jstring * json)) :
  paymentSuccessful.dataMembers old dms = Ok d ->
  memberValues "description" dms = [] ->
  paymentSuccessful.Description d = paymentSuccessful.Description old.
Proof.
  intros Hd Habs. unfold paymentSuccessful.dataMembers in Hd. open_chain Hd.
  injection Hd as <-. cbn [paymentSuccessful.Description].
  rewrite (fieldValue_absent "description" storeString dms _ Habs) in Hx6. congruence.
Qed.

Lemma pending_data_amount (ms : list (jstring * json)) (old d : paymentPending.dataStruct) :
  fieldValue "data" (storeStruct paymentPending.dataMembers) old ms = Ok d ->
  (forall dms, In (JObj dms) (memberValues "data" ms) -> memberValues "amount" dms = []) ->
  paymentPending.Amount d = paymentPending.Amount old.
Proof.
  revert old. induction ms as [|[key x] ms IH]; intros old Hd Habs.
  - injection Hd as <-. reflexivity.
  - cbn [fieldValue] in Hd. rewrite memberValues_cons in Habs.
    destruct (fieldMatch "data" key); [|exact (IH old Hd Habs)].
    apply bind_Ok_inv in Hd as (d1 & Hd1 & Hd).
    rewrite (IH d1 Hd (fun dms Hin => Habs dms (or_intror Hin))).
    destruct x; try discriminate.
    + injection Hd1 as <-. reflexivity.
    + apply (pending_dataMembers_amount _ _ _ Hd1). apply Habs. left. reflexivity.
Qed.

Lemma successful_data_description (ms : list (jstring * json))
    (old d : paymentSuccessful.dataStruct) :
  fieldValue "data" (storeStruct paymentSuccessful.dataMembers) old ms = Ok d ->
  (forall dms, In (JObj dms) (memberValues "data" ms) -> memberValues "description" dms = []) ->
  paymentSuccessful.Description d = paymentSuccessful.Description old.
Proof.
  revert old. induction ms as [|[key x] ms IH]; intros old Hd Habs.
  - injection Hd as <-. reflexivity.
  - cbn [fieldValue] in Hd. rewrite memberValues_cons in Habs.
    destruct (fieldMatch "data" key); [|exact (IH old Hd Habs)].
    apply bind_Ok_inv in Hd as (d1 & Hd1 & Hd).
    rewrite (IH d1 Hd (fun dms Hin => Habs dms (or_intror Hin))).
    destruct x; try discriminate.
    + injection Hd1 as <-. reflexivity.
    + apply (successful_dataMembers_description _ _ _ Hd1). apply Habs. left. reflexivity.
Qed.

End AbsentFields.

(** C10.  Take a body that is a valid JSON object whose event names a
    recognized kind.  Its decoding under the schema of the kind succeeds
    exactly when every data member is null or an object whose members
    that name a declared field are of the type of the field; so a
    missing data object, or a field missing from it, is never a mismatch:
    without a data member, or with acceptable data members none of which
    has the amount (the description), the answer is status 200 with
    amount 0 (the empty description).  And when the decoding fails, some
    data member that is present and not null is to blame: it is not an
    object, or one of its fields is present with a value its type
    refuses. *)
Theorem absent_fields_are_zero `{Platform} (l : Logger) (r : Request)
    (ms : list (jstring * json)) (k : Kind) :
  document (Body r) = Some (JObj ms) ->
  envelopeEvent (JObj ms) = Some (kindName k) ->
  decodesAs k (JObj ms) = forallb (dataAccepts (dataFields k)) (memberValues "data" ms)
  /\ (memberValues "data" ms = [] ->
      finish (HandleDynamicAPI l (newResponseWriter false) r).2 =
        mkResponse 200 jsonHeader [zeroAnswer k])
  /\ (forallb (dataAccepts (dataFields k)) (memberValues "data" ms) = true ->
      (forall dms, In (JObj dms) (memberValues "data" ms) ->
                   memberValues (projected k) dms = []) ->
      finish (HandleDynamicAPI l (newResponseWriter false) r).2 =
        mkResponse 200 jsonHeader [zeroAnswer k])
  /\ (decodesAs k (JObj ms) = false ->
      exists x, In x (memberValues "data" ms) /\ x <> JNull
        /\ forall dms, x = JObj dms ->
             exists f y, In f (dataFields k) /\ In y (memberValues (fst f) dms)
                         /\ snd f y = false).
Proof.
  intros Hdoc Henv. pose proof (document_Decode _ _ Hdoc) as Hd.
  assert (Hev : forallb isStringOrNull (memberValues "event" ms) = true).
  { cbn [envelopeEvent] in Henv.
    destruct (forallb isStringOrNull (memberValues "event" ms)); [reflexivity|discriminate]. }
  pose proof (decodesAs_data k ms Hev) as Hdec.
  assert (Hzero : forallb (dataAccepts (dataFields k)) (memberValues "data" ms) = true ->
      (forall dms, In (JObj dms) (memberValues "data" ms) ->
                   memberValues (projected k) dms = []) ->
      finish (HandleDynamicAPI l (newResponseWriter false) r).2 =
        mkResponse 200 jsonHeader [zeroAnswer k]).
  { intros Hacc Habs. rewrite <- Hdec in Hacc.
    pose proof (Unmarshal_envelope (JObj ms)) as Hid. rewrite Henv in Hid.
    destruct k; cbn [decodesAs] in Hacc; apply isOk_true in Hacc as [p Hp].
    - pose proof (pending_event_agrees _ _ Hp) as Hag. rewrite Hid in Hag.
      injection Hag as Hev'. symmetry in Hev'. cbn [kindName] in Hev'.
      rewrite (handle_pending l r _ p Hd Hp Hev'). cbn [snd finish status header body].
      unfold Unmarshal, storeStruct, paymentPending.members in Hp.
      apply bind_Ok_inv in Hp as (ev & _ & Hp).
      apply bind_Ok_inv in Hp as (d & Hdata & Hp). injection Hp as <-.
      cbn [paymentPending.Event paymentPending.Data] in *.
      rewrite (pending_data_amount ms _ d Hdata Habs). subst ev. reflexivity.
    - pose proof (successful_event_agrees _ _ Hp) as Hag. rewrite Hid in Hag.
      injection Hag as Hev'. symmetry in Hev'. cbn [kindName] in Hev'.
      rewrite (handle_successful l r _ p Hd Hp Hev'). cbn [snd finish status header body].
      unfold Unmarshal, storeStruct, paymentSuccessful.members in Hp.
      apply bind_Ok_inv in Hp as (ev & _ & Hp).
      apply bind_Ok_inv in Hp as (d & Hdata & Hp). injection Hp as <-.
      cbn [paymentSuccessful.Event paymentSuccessful.Data] in *.
      rewrite (successful_data_description ms _ d Hdata Habs). subst ev. reflexivity. }
  split; [exact Hdec|]. split; [|split; [exact Hzero|]].
  - intros Hnone. apply Hzero; rewrite Hnone; [reflexivity|]. intros dms [].
  - intros Hfail. rewrite Hdec in Hfail.
    apply forallb_false_ex in Hfail as (x & Hin & Hx).
    exists x. split; [exact Hin|]. split; [intros ->; discriminate|].
    intros dms ->. cbn [dataAccepts] in Hx. unfold wellTyped in Hx.
    apply forallb_false_ex in Hx as (f & Hf & Hx).
    apply forallb_false_ex in Hx as (y & Hy & Hx).
    exists f, y. auto.
Qed.

Lemma absent_fields_are_zero_witness :
  finish (HandleDynamicAPI (H := demoPlatform) [] (newResponseWriter false)
            (post "{'event':'paymentrequest.pending'}")).2 =
    mkResponse 200 jsonHeader [zeroAnswer Pending].
Proof.
  apply (proj1 (proj2 (absent_fields_are_zero (H := demoPlatform) []
           (post "{'event':'paymentrequest.pending'}")
           [(plain "event", JStr (plain "paymentrequest.pending"))] Pending
           ltac:(vm_compute; reflexivity) ltac:(vm_compute; reflexivity)))).
  vm_compute. reflexivity.
Defined.

(** ** The handlers on concrete requests *)

Example health_scenario :
  finish (HealthCheck [] (newResponseWriter false)
            (mkRequest "GET" "/health" EmptyString)).2 = healthResponse.
Proof. reflexivity. Qed.

(** A document that is the literal null has the empty event. *)
Example null_document_scenario :
  finish (HandleDynamicAPI (H := demoPlatform) [] (newResponseWriter false)
            (post "null")).2 = mkResponse 500 ∅ [].
Proof. vm_compute. reflexivity. Qed.

(** Member names are matched without regard to case, and an escape in a
    name is unquoted before it is matched. *)
Example folded_names_scenario :
  finish (HandleDynamicAPI (H := demoPlatform) [] (newResponseWriter false)
            (post "{'EVENT':'paymentrequest.pending','Data':{'amount':7}}")).2 =
    mkResponse 200 jsonHeader
      [ {[ "event type" := VString "paymentrequest.pending"; "amount" := VInt 7 ]} ].
Proof. vm_compute. reflexivity. Qed.

(** An amount with a fraction does not fit the int field. *)
Example fractional_amount_scenario :
  HandleDynamicAPI (H := demoPlatform) [] (newResponseWriter false)
    (post "{'event':'paymentrequest.pending','data':{'amount':1.5}}") =
    ([connected (H := demoPlatform); hookRecord Pending;
      mkRecord ERROR "error marshalling pending payment data"
        [("error context", AError UnmarshalError)]],
     newResponseWriter false).
Proof. vm_compute. reflexivity. Qed.

(** An int field takes the integers of 64 bits and no others. *)
Example int_range_scenario :
  parseInt "9223372036854775807" = Some 9223372036854775807
  /\ parseInt "9223372036854775808" = None
  /\ parseInt "-9223372036854775808" = Some (-9223372036854775808)
  /\ parseInt "1e3" = None.
Proof. repeat split; vm_compute; reflexivity. Qed.

(** * Part IV: the webhook handler on every request *)

(** ** Status, headers, documents and log of a call *)

(** Opens the handler along its guards: seven ways out. *)
Ltac handler_cases v e p Hd He E1 E2 Hp :=
  unfold HandleDynamicAPI;
  destruct (Decode _) as [v|?] eqn:Hd;
  [ destruct (Unmarshal eventIdentfier.members v _) as [e|?] eqn:He;
    [ destruct (String.eqb (eventIdentfier.Event e) "paymentrequest.pending") eqn:E1;
      [ apply String.eqb_eq in E1;
        destruct (Unmarshal paymentPending.members v _) as [p|?] eqn:Hp
      | apply String.eqb_neq in E1;
        destruct (String.eqb (eventIdentfier.Event e) "paymentrequest.success") eqn:E2;
        [ apply String.eqb_eq in E2;
          destruct (Unmarshal paymentSuccessful.members v _) as [p|?] eqn:Hp
        | apply String.eqb_neq in E2 ] ]
    | ]
  | ].

Lemma unrecognized_iff `{Platform} (r : Request) (v : json) (e : eventIdentfier.t) :
  Decode (Body r) = Ok v ->
  Unmarshal eventIdentfier.members v eventIdentfier.zero = Ok e ->
  unrecognized r <->
    eventIdentfier.Event e <> "paymentrequest.pending"
    /\ eventIdentfier.Event e <> "paymentrequest.success".
Proof.
  intros Hd He. split.
  - intros (v' & e' & Hd' & He' & H1 & H2).
    rewrite Hd in Hd'. injection Hd' as <-. rewrite He in He'. injection He' as <-. auto.
  - intros [H1 H2]. exists v, e. auto.
Qed.

Lemma unrecognized_decoded `{Platform} (r : Request) :
  unrecognized r -> exists v e,
    Decode (Body r) = Ok v
    /\ Unmarshal eventIdentfier.members v eventIdentfier.zero = Ok e.
Proof. intros (v & e & Hd & He & _). eauto. Qed.

(** X1.  The webhook handler answers with status 500 exactly when a
    first JSON value is read from the body, the envelope takes it and the
    event it holds is neither of the two recognized names; every other
    request is answered with status 200, the aborted ones included, on a
    connection that takes writes and on one that refuses them. *)
Theorem status_500_iff_unrecognized `{Platform} (l : Logger) (failing : bool) (r : Request) :
  (StatusCode (finish (HandleDynamicAPI l (newResponseWriter failing) r).2) = 500
   <-> unrecognized r)
  /\ (StatusCode (finish (HandleDynamicAPI l (newResponseWriter failing) r).2) = 200
      <-> ~ unrecognized r).
Proof.
  assert (Hnot : forall P : Prop, ~ P -> ((200 = 500 <-> P) /\ (200 = 200 <-> ~ P))).
  { intros P HP. split; split; try discriminate; try contradiction; auto. }
  assert (Hyes : forall P : Prop, P -> ((500 = 500 <-> P) /\ (500 = 200 <-> ~ P))).
  { intros P HP. split; split; try discriminate; try contradiction; auto. }
  handler_cases v e p Hd He E1 E2 Hp.
  - destruct failing; apply Hnot; rewrite (unrecognized_iff r v e Hd He); tauto.
  - apply Hnot. rewrite (unrecognized_iff r v e Hd He). tauto.
  - destruct failing; apply Hnot; rewrite (unrecognized_iff r v e Hd He); tauto.
  - apply Hnot. rewrite (unrecognized_iff r v e Hd He). tauto.
  - apply Hyes. rewrite (unrecognized_iff r v e Hd He). tauto.
  - apply Hnot. intros Hu. apply unrecognized_decoded in Hu as (v' & e' & Hd' & He').
    rewrite Hd in Hd'. injection Hd' as <-. congruence.
  - apply Hnot. intros Hu. apply unrecognized_decoded in Hu as (v' & e' & Hd' & He').
    congruence.
Qed.

Lemma answerable_iff `{Platform} (r : Request) (v : json) (e : eventIdentfier.t) :
  Decode (Body r) = Ok v ->
  Unmarshal eventIdentfier.members v eventIdentfier.zero = Ok e ->
  answerable r <-> exists k, eventIdentfier.Event e = kindName k /\ decodesAs k v = true.
Proof.
  intros Hd He. split.
  - intros (v' & e' & k & Hd' & He' & Hk & Hok).
    rewrite Hd in Hd'. injection Hd' as <-. rewrite He in He'. injection He' as <-. eauto.
  - intros (k & Hk & Hok). exists v, e, k. auto.
Qed.

Lemma answerable_decoded `{Platform} (r : Request) :
  answerable r -> exists v e,
    Decode (Body r) = Ok v
    /\ Unmarshal eventIdentfier.members v eventIdentfier.zero = Ok e.
Proof. intros (v & e & k & Hd & He & _). eauto. Qed.

Lemma jsonHeader_nonempty : jsonHeader <> ∅.
Proof.
  intros Heq. assert (Hl : jsonHeader !! "Content-Type" = (∅ : gmap string (list string)) !! "Content-Type")
    by (rewrite Heq; reflexivity).
  vm_compute in Hl. discriminate.
Qed.

(** X2.  The webhook handler writes a document exactly when the
    connection takes the write and the event names a kind under whose
    schema the payload decodes, and it never writes more than one; the
    headers of the answer are the JSON content type alone when the event
    names such a kind, whatever the connection does, and there is no
    header at all otherwise. *)
Theorem document_iff_answerable `{Platform} (l : Logger) (failing : bool) (r : Request) :
  let resp := finish (HandleDynamicAPI l (newResponseWriter failing) r).2 in
  (Content resp <> [] <-> failing = false /\ answerable r)
  /\ (length (Content resp) <= 1)%nat
  /\ (Header resp = jsonHeader <-> answerable r)
  /\ (Header resp = ∅ <-> ~ answerable r).
Proof.
  assert (Hno : forall (P : Prop) (s : Z), ~ P ->
            let resp := mkResponse s ∅ [] in
            (Content resp <> [] <-> failing = false /\ P)
            /\ (length (Content resp) <= 1)%nat
            /\ (Header resp = jsonHeader <-> P)
            /\ (Header resp = ∅ <-> ~ P)).
  { intros P s HP. cbn. repeat split; try tauto; try lia.
    intros Heq. exfalso. apply jsonHeader_nonempty. symmetry. exact Heq. }
  assert (Hyes : forall (P : Prop) (d : Document), P ->
            let resp := mkResponse 200 jsonHeader (if failing then [] else [d]) in
            (Content resp <> [] <-> failing = false /\ P)
            /\ (length (Content resp) <= 1)%nat
            /\ (Header resp = jsonHeader <-> P)
            /\ (Header resp = ∅ <-> ~ P)).
  { intros P d HP. cbn. destruct failing; cbn; repeat split; try tauto; try lia;
      try discriminate; try (intros [[=] _]).
    all: intros Heq; exfalso; apply jsonHeader_nonempty; exact Heq. }
  handler_cases v e p Hd He E1 E2 Hp.
  - assert (Ha : answerable r).
    { rewrite (answerable_iff r v e Hd He). exists Pending. cbn. rewrite Hp. auto. }
    destruct failing; [exact (Hyes _ ∅ Ha)|exact (Hyes _ _ Ha)].
  - apply Hno. rewrite (answerable_iff r v e Hd He). intros ([|] & Hk & Hok).
    + cbn in Hok. rewrite Hp in Hok. discriminate.
    + rewrite E1 in Hk. discriminate.
  - assert (Ha : answerable r).
    { rewrite (answerable_iff r v e Hd He). exists Successful. cbn. rewrite Hp. auto. }
    destruct failing; [exact (Hyes _ ∅ Ha)|exact (Hyes _ _ Ha)].
  - apply Hno. rewrite (answerable_iff r v e Hd He). intros ([|] & Hk & Hok).
    + contradiction.
    + cbn in Hok. rewrite Hp in Hok. discriminate.
  - apply Hno. rewrite (answerable_iff r v e Hd He). intros ([|] & Hk & Hok); contradiction.
  - apply Hno. intros Ha. apply answerable_decoded in Ha as (v' & e' & Hd' & He').
    rewrite Hd in Hd'. injection Hd' as <-. congruence.
  - apply Hno. intros Ha. apply answerable_decoded in Ha as (v' & e' & Hd' & He').
    congruence.
Qed.

(** The handler appends to the logger and does not read it. *)
Lemma handler_log_local `{Platform} (l : Logger) (w : ResponseWriter) (r : Request) :
  HandleDynamicAPI l w r =
    (l ++ (HandleDynamicAPI [] w r).1, (HandleDynamicAPI [] w r).2).
Proof.
  handler_cases v e p Hd He E1 E2 Hp.
  1, 3: destruct (Encode _ _) as [w' [u|werr]].
  all: unfold Info, Error; cbn [fst snd app]; rewrite <- ?app_assoc; reflexivity.
Qed.

(** Every call logs that the API is connected, then one or two records. *)
Lemma handler_log_shape `{Platform} (w : ResponseWriter) (r : Request) :
  exists rest, (HandleDynamicAPI [] w r).1 = connected :: rest
               /\ (1 <= length rest <= 2)%nat.
Proof.
  handler_cases v e p Hd He E1 E2 Hp.
  1, 3: destruct (Encode _ _) as [w' [u|werr]].
  all: unfold Info, Error, connected; cbn [fst snd app]; eexists; split;
    [reflexivity|cbn; lia].
Qed.

(** X4.  Requests are served independently of each other: when
    requests are served one after the other with one shared logger, each
    request is sent the response it is sent when served alone, and the
    log is the earlier records followed by what each call logs when
    served alone, in the order of the requests. *)
Theorem requests_served_independently `{Platform} (l : Logger) (rs : list Request) :
  serveAll HandleDynamicAPI l rs =
    (l ++ concat (map callLog rs), map callResponse rs).
Proof.
  revert l. induction rs as [|r rs IH]; intros l.
  - cbn. rewrite app_nil_r. reflexivity.
  - cbn [serveAll map concat]. rewrite (handler_log_local l).
    rewrite IH. unfold callLog, callResponse. rewrite <- app_assoc. reflexivity.
Qed.

(** X3.  The webhook handler only appends to the log: the records
    logged before the call are kept, in order, and neither what the call
    appends nor what it writes depends on them.  What a call appends
    starts with the record that the API is connected, followed by one or
    two more records. *)
Theorem handler_appends_to_log `{Platform} (l : Logger) (w : ResponseWriter) (r : Request) :
  HandleDynamicAPI l w r =
    (l ++ (HandleDynamicAPI [] w r).1, (HandleDynamicAPI [] w r).2)
  /\ exists rest, (HandleDynamicAPI [] w r).1 = connected :: rest
                  /\ (1 <= length rest <= 2)%nat.
Proof. split; [apply handler_log_local|apply handler_log_shape]. Qed.

(** ** What surrounds the first value of the body *)

Lemma append_String (c : ascii) (s t : string) : String c s +:+ t = String c (s +:+ t).
Proof. reflexivity. Qed.

Lemma append_Empty (t : string) : EmptyString +:+ t = t.
Proof. reflexivity. Qed.

(** The scanner on a text followed by more text. *)
Module ScannerAppend.
Import Scanner ScannerFacts.

Lemma length_append (s t : string) :
  String.length (s +:+ t) = (String.length s + String.length t)%nat.
Proof.
  induction s as [|c s IH]; [reflexivity|].
  rewrite append_String. cbn [String.length]. rewrite IH. reflexivity.
Qed.

Lemma skipSpace_app (s t : string) :
  skipSpace s <> EmptyString -> skipSpace (s +:+ t) = skipSpace s +:+ t.
Proof.
  induction s as [|c s IH]; [intros Hn; contradiction Hn; reflexivity|].
  rewrite ?append_String, ?append_Empty; cbn [skipSpace]. destruct (isSpace c); [exact IH|reflexivity].
Qed.

Lemma skipSpace_allSpace (ws s : string) :
  allSpace ws = true -> skipSpace (ws +:+ s) = skipSpace s.
Proof.
  induction ws as [|c ws IH]; [reflexivity|]. rewrite ?append_String, ?append_Empty; cbn [allSpace skipSpace].
  destruct (isSpace c); [exact IH|discriminate].
Qed.

Lemma expect_nonempty (c : ascii) (s r : string) :
  expect c s = Some r -> skipSpace s <> EmptyString.
Proof. unfold expect. destruct (skipSpace s); [discriminate|discriminate]. Qed.

Lemma expect_app (c : ascii) (s r t : string) :
  expect c s = Some r -> expect c (s +:+ t) = Some (r +:+ t).
Proof.
  intros He. pose proof (expect_nonempty _ _ _ He) as Hn. revert He.
  unfold expect. rewrite (skipSpace_app s t Hn).
  destruct (skipSpace s) as [|c' r']; [discriminate|]. rewrite ?append_String, ?append_Empty.
  destruct (c' =? c)%char; [|discriminate]. intros [= <-]. reflexivity.
Qed.

Lemma expect_None_app (c : ascii) (s t : string) :
  expect c s = None -> skipSpace s <> EmptyString -> expect c (s +:+ t) = None.
Proof.
  intros He Hn. revert He. unfold expect. rewrite (skipSpace_app s t Hn).
  destruct (skipSpace s) as [|c' r']; [contradiction Hn; reflexivity|]. rewrite ?append_String, ?append_Empty.
  destruct (c' =? c)%char; [discriminate|reflexivity].
Qed.

Lemma scanString_app (s t : string) (items : jstring) (rest : string) :
  scanString s = Some (items, rest) -> scanString (s +:+ t) = Some (items, rest +:+ t).
Proof.
  revert items rest. remember (String.length s) as n eqn:Hn.
  revert s Hn. induction n as [n IHn] using lt_wf_ind. intros s -> items rest.
  assert (IH : forall s' items' rest', (String.length s' < String.length s)%nat ->
             scanString s' = Some (items', rest') ->
             scanString (s' +:+ t) = Some (items', rest' +:+ t)).
  { intros s' items' rest' Hlt. exact (IHn _ Hlt s' eq_refl items' rest'). }
  clear IHn. destruct s as [|c r]; [discriminate|]. rewrite ?append_String, ?append_Empty; cbn [scanString].
  destruct (c =? dquote)%char.
  { intros [= <- <-]. reflexivity. }
  destruct (c =? "\")%char.
  - destruct r as [|e r1]; [discriminate|]. rewrite ?append_String, ?append_Empty.
    destruct (e =? "u")%char.
    + destruct r1 as [|h1 [|h2 [|h3 [|h4 r2]]]]; try discriminate. rewrite ?append_String, ?append_Empty.
      destruct (isHex h1 && isHex h2 && isHex h3 && isHex h4); [|discriminate].
      destruct (scanString r2) as [[items' rest']|] eqn:E; [|discriminate].
      intros [= <- <-]. rewrite (IH r2 items' rest'); [reflexivity|cbn; lia|exact E].
    + destruct (existsb _ _); [|discriminate].
      destruct (scanString r1) as [[items' rest']|] eqn:E; [|discriminate].
      intros [= <- <-]. rewrite (IH r1 items' rest'); [reflexivity|cbn; lia|exact E].
  - destruct (code c <? 32)%Z; [discriminate|].
    destruct (scanString r) as [[items' rest']|] eqn:E; [|discriminate].
    intros [= <- <-]. rewrite (IH r items' rest'); [reflexivity|cbn; lia|exact E].
Qed.

Lemma scanDigits_app (s t ds rest : string) :
  scanDigits s = (ds, rest) -> rest <> EmptyString ->
  scanDigits (s +:+ t) = (ds, rest +:+ t).
Proof.
  revert ds. induction s as [|c s IH]; intros ds.
  - intros [= <- <-] Hn. contradiction Hn. reflexivity.
  - rewrite ?append_String, ?append_Empty; cbn [scanDigits]. destruct (isDigit c).
    + destruct (scanDigits s) as [ds' rest'] eqn:E. intros [= <- <-] Hn.
      rewrite (IH ds' eq_refl Hn). reflexivity.
    + intros [= <- <-] _. reflexivity.
Qed.

Lemma scanFrac_app (s t f rest : string) :
  scanFrac s = Some (f, rest) -> rest <> EmptyString ->
  scanFrac (s +:+ t) = Some (f, rest +:+ t).
Proof.
  unfold scanFrac. destruct s as [|c r].
  - intros [= <- <-] Hn. contradiction Hn. reflexivity.
  - rewrite ?append_String, ?append_Empty. destruct (c =? ".")%char.
    + destruct (scanDigits r) as [ds rest'] eqn:E. destruct ds as [|d ds]; [discriminate|].
      intros [= <- <-] Hn. rewrite (scanDigits_app _ t _ _ E Hn). reflexivity.
    + intros [= <- <-] _. reflexivity.
Qed.

Lemma scanExp_app (s t e rest : string) :
  scanExp s = Some (e, rest) -> rest <> EmptyString ->
  scanExp (s +:+ t) = Some (e, rest +:+ t).
Proof.
  unfold scanExp. destruct s as [|c r].
  - intros [= <- <-] Hn. contradiction Hn. reflexivity.
  - rewrite ?append_String, ?append_Empty. destruct ((c =? "e")%char || (c =? "E")%char).
    + destruct r as [|g r'].
      * cbn. discriminate.
      * rewrite ?append_String, ?append_Empty. destruct ((g =? "+")%char || (g =? "-")%char).
        -- destruct (scanDigits r') as [ds rest'] eqn:E. destruct ds as [|d ds]; [discriminate|].
           intros [= <- <-] Hn. rewrite (scanDigits_app _ t _ _ E Hn). reflexivity.
        -- destruct (scanDigits (String g r')) as [ds rest'] eqn:E.
           destruct ds as [|d ds]; [discriminate|].
           intros [= <- <-] Hn.
           rewrite <- append_String.
           rewrite (scanDigits_app _ t _ _ E Hn). reflexivity.
    + intros [= <- <-] _. reflexivity.
Qed.

Lemma scanFrac_rest (s f rest : string) :
  scanFrac s = Some (f, rest) -> rest <> EmptyString -> s <> EmptyString.
Proof. intros Hs Hn ->. cbn in Hs. injection Hs as <- <-. contradiction Hn. reflexivity. Qed.

Lemma scanExp_suffix (s e rest : string) :
  scanExp s = Some (e, rest) -> rest <> EmptyString -> s <> EmptyString.
Proof. intros Hs Hn ->. cbn in Hs. injection Hs as <- <-. contradiction Hn. reflexivity. Qed.

Lemma scanUnsigned_app (s t lit rest : string) :
  scanUnsigned s = Some (lit, rest) -> rest <> EmptyString ->
  scanUnsigned (s +:+ t) = Some (lit, rest +:+ t).
Proof.
  unfold scanUnsigned. destruct s as [|c r]; [discriminate|]. rewrite ?append_String, ?append_Empty.
  intros Hs Hn.
  destruct (c =? "0")%char.
  - destruct (scanFrac r) as [[f r2]|] eqn:Ef; [|discriminate].
    destruct (scanExp r2) as [[e r3]|] eqn:Ee; [|discriminate].
    injection Hs as <- <-.
    pose proof (scanExp_suffix _ _ _ Ee Hn) as Hr2.
    rewrite (scanFrac_app _ t _ _ Ef Hr2), (scanExp_app _ t _ _ Ee Hn). reflexivity.
  - destruct (isDigit19 c); [|discriminate].
    destruct (scanDigits r) as [ds r1] eqn:Ed.
    destruct (scanFrac r1) as [[f r2]|] eqn:Ef; [|discriminate].
    destruct (scanExp r2) as [[e r3]|] eqn:Ee; [|discriminate].
    injection Hs as <- <-.
    pose proof (scanExp_suffix _ _ _ Ee Hn) as Hr2.
    pose proof (scanFrac_rest _ _ _ Ef Hr2) as Hr1.
    rewrite (scanDigits_app _ t _ _ Ed Hr1).
    rewrite (scanFrac_app _ t _ _ Ef Hr2), (scanExp_app _ t _ _ Ee Hn). reflexivity.
Qed.

Lemma scanNumber_app (s t lit rest : string) :
  scanNumber s = Some (lit, rest) -> rest <> EmptyString ->
  scanNumber (s +:+ t) = Some (lit, rest +:+ t).
Proof.
  unfold scanNumber. destruct s as [|c r]; [discriminate|]. rewrite ?append_String, ?append_Empty.
  destruct (c =? "-")%char.
  - destruct (scanUnsigned r) as [[n rest']|] eqn:E; [|discriminate].
    intros [= <- <-] Hn. rewrite (scanUnsigned_app _ t _ _ E Hn). reflexivity.
  - intros Hs Hn. rewrite <- append_String.
    apply scanUnsigned_app; assumption.
Qed.

Lemma stripPrefix_app (p s t r : string) :
  stripPrefix p s = Some r -> stripPrefix p (s +:+ t) = Some (r +:+ t).
Proof.
  revert s. induction p as [|a p IH]; intros s; cbn [stripPrefix].
  - intros [= <-]. reflexivity.
  - destruct s as [|b s]; [discriminate|]. rewrite ?append_String, ?append_Empty.
    destruct (a =? b)%char; [apply IH|discriminate].
Qed.

Lemma scanValue_nonempty (f d : nat) (s : string) (v : json) (rest : string) :
  scanValue f d s = Some (v, rest) -> skipSpace s <> EmptyString.
Proof.
  destruct f as [|f]; [discriminate|]. cbn [scanValue].
  destruct (skipSpace s); [discriminate|discriminate].
Qed.

Lemma scanMembers_nonempty (f d : nat) (s : string) ms (rest : string) :
  scanMembers f d s = Some (ms, rest) -> skipSpace s <> EmptyString.
Proof.
  destruct f as [|f]; [discriminate|]. cbn [scanMembers].
  destruct (expect dquote s) eqn:E; [|discriminate]. intros _.
  apply (expect_nonempty _ _ _ E).
Qed.

Lemma scanElements_nonempty (f d : nat) (s : string) vs (rest : string) :
  scanElements f d s = Some (vs, rest) -> skipSpace s <> EmptyString.
Proof.
  destruct f as [|f]; [discriminate|]. cbn [scanElements].
  destruct (scanValue f d s) as [[v r1]|] eqn:E; [|discriminate]. intros _.
  apply (scanValue_nonempty _ _ _ _ _ E).
Qed.

Lemma skipSpace_nonempty_arg (s : string) :
  skipSpace s <> EmptyString -> s <> EmptyString.
Proof. intros Hn ->. apply Hn. reflexivity. Qed.

Lemma scan_app (t : string) (f : nat) :
  (forall d s v rest,
      scanValue f d s = Some (v, rest) ->
      isNumber v = false \/ rest <> EmptyString ->
      scanValue f d (s +:+ t) = Some (v, rest +:+ t))
  /\ (forall d s ms rest,
        scanMembers f d s = Some (ms, rest) ->
        scanMembers f d (s +:+ t) = Some (ms, rest +:+ t))
  /\ (forall d s vs rest,
        scanElements f d s = Some (vs, rest) ->
        scanElements f d (s +:+ t) = Some (vs, rest +:+ t)).
Proof.
  induction f as [|f (IHv & IHm & IHe)]; [repeat split; discriminate|].
  split; [|split].
  - intros d s v rest. cbn [scanValue].
    destruct (skipSpace s) as [|c r] eqn:Es; [discriminate|].
    assert (Hs : skipSpace (s +:+ t) = String c (r +:+ t)).
    { rewrite skipSpace_app; rewrite Es; [reflexivity|discriminate]. }
    rewrite Hs.
    destruct (c =? "{")%char.
    { destruct (d <? maxNestingDepth)%nat; [|discriminate].
      destruct (expect "}" r) as [r'|] eqn:Ex.
      - intros [= <- <-] _. rewrite (expect_app _ _ _ t Ex). reflexivity.
      - destruct (scanMembers f (S d) r) as [[ms rest']|] eqn:Em; [|discriminate].
        intros [= <- <-] _.
        rewrite (expect_None_app _ _ t Ex (scanMembers_nonempty _ _ _ _ _ Em)).
        rewrite (IHm _ _ _ _ Em). reflexivity. }
    destruct (c =? "[")%char.
    { destruct (d <? maxNestingDepth)%nat; [|discriminate].
      destruct (expect "]" r) as [r'|] eqn:Ex.
      - intros [= <- <-] _. rewrite (expect_app _ _ _ t Ex). reflexivity.
      - destruct (scanElements f (S d) r) as [[vs rest']|] eqn:Em; [|discriminate].
        intros [= <- <-] _.
        rewrite (expect_None_app _ _ t Ex (scanElements_nonempty _ _ _ _ _ Em)).
        rewrite (IHe _ _ _ _ Em). reflexivity. }
    destruct (c =? dquote)%char.
    { destruct (scanString r) as [[items rest']|] eqn:Estr; [|discriminate].
      intros [= <- <-] _. rewrite (scanString_app _ t _ _ Estr). reflexivity. }
    destruct (c =? "t")%char.
    { destruct (stripPrefix "rue" r) as [rest'|] eqn:Ep; [|discriminate].
      intros [= <- <-] _. rewrite (stripPrefix_app _ _ t _ Ep). reflexivity. }
    destruct (c =? "f")%char.
    { destruct (stripPrefix "alse" r) as [rest'|] eqn:Ep; [|discriminate].
      intros [= <- <-] _. rewrite (stripPrefix_app _ _ t _ Ep). reflexivity. }
    destruct (c =? "n")%char.
    { destruct (stripPrefix "ull" r) as [rest'|] eqn:Ep; [|discriminate].
      intros [= <- <-] _. rewrite (stripPrefix_app _ _ t _ Ep). reflexivity. }
    destruct (scanNumber (String c r)) as [[lit rest']|] eqn:Enum; [|discriminate].
    intros [= <- <-] [Hnum|Hrest]; [discriminate|].
    rewrite <- append_String.
    rewrite (scanNumber_app _ t _ _ Enum Hrest). reflexivity.
  - intros d s ms rest. cbn [scanMembers].
    destruct (expect dquote s) as [r|] eqn:E0; [|discriminate].
    destruct (scanString r) as [[key r1]|] eqn:E1; [|discriminate].
    destruct (expect ":" r1) as [r2|] eqn:E2; [|discriminate].
    destruct (scanValue f d r2) as [[v r3]|] eqn:E3; [|discriminate].
    rewrite (expect_app _ _ _ t E0), (scanString_app _ t _ _ E1), (expect_app _ _ _ t E2).
    destruct (expect "," r3) as [r4|] eqn:E4.
    + destruct (scanMembers f d r4) as [[ms' rest']|] eqn:E5; [|discriminate].
      intros [= <- <-].
      rewrite (IHv _ _ _ _ E3
                 (or_intror (skipSpace_nonempty_arg _ (expect_nonempty _ _ _ E4)))).
      rewrite (expect_app _ _ _ t E4), (IHm _ _ _ _ E5). reflexivity.
    + destruct (expect "}" r3) as [r4|] eqn:E5; [|discriminate].
      intros [= <- <-].
      rewrite (IHv _ _ _ _ E3
                 (or_intror (skipSpace_nonempty_arg _ (expect_nonempty _ _ _ E5)))).
      rewrite (expect_None_app _ _ t E4 (expect_nonempty _ _ _ E5)).
      rewrite (expect_app _ _ _ t E5). reflexivity.
  - intros d s vs rest. cbn [scanElements].
    destruct (scanValue f d s) as [[v r1]|] eqn:E1; [|discriminate].
    destruct (expect "," r1) as [r2|] eqn:E2.
    + destruct (scanElements f d r2) as [[vs' rest']|] eqn:E3; [|discriminate].
      intros [= <- <-].
      rewrite (IHv _ _ _ _ E1
                 (or_intror (skipSpace_nonempty_arg _ (expect_nonempty _ _ _ E2)))).
      rewrite (expect_app _ _ _ t E2), (IHe _ _ _ _ E3). reflexivity.
    + destruct (expect "]" r1) as [r2|] eqn:E3; [|discriminate].
      intros [= <- <-].
      rewrite (IHv _ _ _ _ E1
                 (or_intror (skipSpace_nonempty_arg _ (expect_nonempty _ _ _ E3)))).
      rewrite (expect_None_app _ _ t E2 (expect_nonempty _ _ _ E3)).
      rewrite (expect_app _ _ _ t E3). reflexivity.
Qed.

Lemma readValue_app (s t : string) (v : json) (rest : string) :
  readValue s = Some (v, rest) -> isNumber v = false ->
  readValue (s +:+ t) = Some (v, rest +:+ t).
Proof.
  intros Hs Hv. apply (readValue_complete (fuelFor s)).
  apply (proj1 (scan_app t (fuelFor s))); [exact Hs|left; exact Hv].
Qed.

Lemma scanValue_leading (f d : nat) (ws s : string) :
  allSpace ws = true -> scanValue f d (ws +:+ s) = scanValue f d s.
Proof.
  intros Hws. destruct f as [|f]; [reflexivity|]. cbn [scanValue].
  rewrite (skipSpace_allSpace _ _ Hws). reflexivity.
Qed.

Lemma readValue_leading (ws s : string) :
  allSpace ws = true -> readValue (ws +:+ s) = readValue s.
Proof.
  intros Hws. unfold readValue at 1. rewrite (scanValue_leading _ _ _ _ Hws).
  destruct (readValue s) as [[v rest]|] eqn:E.
  - unfold readValue in E. apply (proj1 (scan_enough _)) in E as [Hl Hv].
    apply Hv. unfold fuelFor. rewrite length_append. lia.
  - apply (readValue_None _ E).
Qed.

End ScannerAppend.


Lemma Decode_trailing (s t : string) (v : json) :
  Decode s = Ok v -> isNumber v = false -> Decode (s +:+ t) = Ok v.
Proof.
  unfold Decode. destruct (Scanner.readValue s) as [[v' rest]|] eqn:E; [|discriminate].
  intros [= ->] Hv. rewrite (ScannerAppend.readValue_app _ t _ _ E Hv). reflexivity.
Qed.

Lemma Decode_leading (ws s : string) :
  allSpace ws = true -> Decode (ws +:+ s) = Decode s.
Proof. intros Hws. unfold Decode. rewrite (ScannerAppend.readValue_leading _ _ Hws). reflexivity. Qed.

Lemma handler_same_Decode `{Platform} (l : Logger) (w : ResponseWriter) (r r' : Request) :
  Decode (Body r) = Decode (Body r') ->
  HandleDynamicAPI l w r = HandleDynamicAPI l w r'.
Proof. intros Hd. unfold HandleDynamicAPI. rewrite Hd. reflexivity. Qed.

(** X5.  Whatever follows the first JSON value of the body is ignored,
    unless that value is a bare number (whose digits the bytes after it
    could extend): when the first value of the body is an object, an
    array, a string, a boolean or null, the handler does with the body
    followed by any bytes what it does with the body. *)
Theorem trailing_bytes_ignored `{Platform} (l : Logger) (w : ResponseWriter)
    (r : Request) (t : string) (v : json) :
  Decode (Body r) = Ok v ->
  isNumber v = false ->
  HandleDynamicAPI l w (withBody r (Body r +:+ t)) = HandleDynamicAPI l w r.
Proof.
  intros Hd Hv. apply handler_same_Decode. cbn [Body withBody].
  rewrite Hd. apply Decode_trailing; assumption.
Qed.

Lemma trailing_bytes_ignored_witness :
  HandleDynamicAPI (H := demoPlatform) [] (newResponseWriter false)
    (withBody (post "{'event':'paymentrequest.pending'}")
       (Body (post "{'event':'paymentrequest.pending'}") +:+ " trailing"))
  = HandleDynamicAPI (H := demoPlatform) [] (newResponseWriter false)
      (post "{'event':'paymentrequest.pending'}").
Proof.
  apply (trailing_bytes_ignored (H := demoPlatform) [] (newResponseWriter false)
           (post "{'event':'paymentrequest.pending'}") " trailing"
           (JObj [(plain "event", JStr (plain "paymentrequest.pending"))])
           ltac:(vm_compute; reflexivity) ltac:(reflexivity)).
Defined.

(** X6.  JSON whitespace before the first value of the body is ignored:
    the handler does with the body preceded by spaces, tabs, carriage
    returns and line feeds what it does with the body, also when the body
    is refused. *)
Theorem leading_space_ignored `{Platform} (l : Logger) (w : ResponseWriter)
    (r : Request) (ws : string) :
  allSpace ws = true ->
  HandleDynamicAPI l w (withBody r (ws +:+ Body r)) = HandleDynamicAPI l w r.
Proof.
  intros Hws. apply handler_same_Decode. cbn [Body withBody].
  apply Decode_leading, Hws.
Qed.

Lemma leading_space_ignored_witness :
  HandleDynamicAPI (H := demoPlatform) [] (newResponseWriter false)
    (withBody (post "{'event':'paymentrequest.success'}")
       ("   " +:+ Body (post "{'event':'paymentrequest.success'}")))
  = HandleDynamicAPI (H := demoPlatform) [] (newResponseWriter false)
      (post "{'event':'paymentrequest.success'}").
Proof.
  apply (leading_space_ignored (H := demoPlatform) [] (newResponseWriter false)
           (post "{'event':'paymentrequest.success'}") "   "
           ltac:(reflexivity)).
Defined.

(** ** Members that name no field *)

(** A field is stored from the values of the members that name it. *)
Lemma fieldValue_storeAll {A : Type} (name : string) (store : A -> json -> result A)
    (ms : list (jstring * json)) (old : A) :
  fieldValue name store old ms = storeAll store old (memberValues name ms).
Proof.
  revert old. induction ms as [|[key v] ms IH]; intros old; [reflexivity|].
  cbn [fieldValue]. rewrite memberValues_cons.
  destruct (fieldMatch name key); [|apply IH]. cbn [storeAll].
  destruct (store old v) as [x|e]; [apply IH|reflexivity].
Qed.

Lemma sameMembers_undeclared (names : list string) (key : jstring) (x : json)
    (ms1 ms2 : list (jstring * json)) :
  declaredIn names key = false ->
  sameMembers names (ms1 ++ (key, x) :: ms2) (ms1 ++ ms2).
Proof.
  intros Hund. unfold sameMembers. apply Forall_forall. intros name Hin.
  rewrite !memberValues_app, memberValues_cons.
  destruct (fieldMatch name key) eqn:E; [|reflexivity].
  exfalso. unfold declaredIn in Hund.
  assert (Hex : existsb (fun n => fieldMatch n key) names = true).
  { apply existsb_exists. exists name. split; [apply list_elem_of_In; exact Hin|exact E]. }
  congruence.
Qed.

Section Extensionality.
Context `{Platform}.

Lemma envelope_members_ext (old : eventIdentfier.t) (ms ms' : list (jstring * json)) :
  sameMembers topNames ms ms' ->
  eventIdentfier.members old ms = eventIdentfier.members old ms'.
Proof.
  intros Hs. unfold sameMembers, topNames in Hs.
  apply Forall_cons in Hs as [He _].
  unfold eventIdentfier.members. rewrite !fieldValue_storeAll, He. reflexivity.
Qed.

Lemma pending_members_ext (old : paymentPending.t) (ms ms' : list (jstring * json)) :
  sameMembers topNames ms ms' ->
  paymentPending.members old ms = paymentPending.members old ms'.
Proof.
  intros Hs. unfold sameMembers, topNames in Hs.
  apply Forall_cons in Hs as [He Hs]. apply Forall_cons in Hs as [Hd _].
  unfold paymentPending.members. rewrite !fieldValue_storeAll, He, Hd. reflexivity.
Qed.

Lemma successful_members_ext (old : paymentSuccessful.t) (ms ms' : list (jstring * json)) :
  sameMembers topNames ms ms' ->
  paymentSuccessful.members old ms = paymentSuccessful.members old ms'.
Proof.
  intros Hs. unfold sameMembers, topNames in Hs.
  apply Forall_cons in Hs as [He Hs]. apply Forall_cons in Hs as [Hd _].
  unfold paymentSuccessful.members. rewrite !fieldValue_storeAll, He, Hd. reflexivity.
Qed.

Ltac names_apart Hs :=
  unfold sameMembers, dataNames in Hs;
  repeat (let Hn := fresh "Hn" in apply Forall_cons in Hs as [Hn Hs]).

Lemma pending_dataMembers_ext (old : paymentPending.dataStruct)
    (ms ms' : list (jstring * json)) :
  sameMembers dataNames ms ms' ->
  paymentPending.dataMembers old ms = paymentPending.dataMembers old ms'.
Proof.
  intros Hs. names_apart Hs.
  unfold paymentPending.dataMembers. rewrite !fieldValue_storeAll.
  repeat match goal with Hn : memberValues _ ms = _ |- _ => rewrite Hn; clear Hn end.
  reflexivity.
Qed.

Lemma successful_dataMembers_ext (old : paymentSuccessful.dataStruct)
    (ms ms' : list (jstring * json)) :
  sameMembers dataNames ms ms' ->
  paymentSuccessful.dataMembers old ms = paymentSuccessful.dataMembers old ms'.
Proof.
  intros Hs. names_apart Hs.
  unfold paymentSuccessful.dataMembers. rewrite !fieldValue_storeAll.
  repeat match goal with Hn : memberValues _ ms = _ |- _ => rewrite Hn; clear Hn end.
  reflexivity.
Qed.

(** The handler on two requests whose raw messages unmarshal alike. *)
Lemma handler_same_Unmarshal (l : Logger) (w : ResponseWriter) (r r' : Request)
    (v v' : json) :
  Decode (Body r) = Ok v -> Decode (Body r') = Ok v' ->
  Unmarshal eventIdentfier.members v eventIdentfier.zero =
    Unmarshal eventIdentfier.members v' eventIdentfier.zero ->
  Unmarshal paymentPending.members v paymentPending.zero =
    Unmarshal paymentPending.members v' paymentPending.zero ->
  Unmarshal paymentSuccessful.members v paymentSuccessful.zero =
    Unmarshal paymentSuccessful.members v' paymentSuccessful.zero ->
  HandleDynamicAPI l w r = HandleDynamicAPI l w r'.
Proof.
  intros Hd Hd' He Hp Hs. unfold HandleDynamicAPI.
  rewrite Hd, Hd', He, Hp, Hs. reflexivity.
Qed.

Lemma handler_sameMembers (l : Logger) (w : ResponseWriter) (r r' : Request)
    (ms ms' : list (jstring * json)) :
  Decode (Body r) = Ok (JObj ms) -> Decode (Body r') = Ok (JObj ms') ->
  sameMembers topNames ms ms' ->
  HandleDynamicAPI l w r = HandleDynamicAPI l w r'.
Proof.
  intros Hd Hd' Hs. apply (handler_same_Unmarshal l w r r' _ _ Hd Hd');
    unfold Unmarshal, storeStruct.
  - apply envelope_members_ext, Hs.
  - apply pending_members_ext, Hs.
  - apply successful_members_ext, Hs.
Qed.

(** Replacing the value of one member by one that every field stores
    alike. *)
Lemma fieldValue_replace {A : Type} (name : string) (store : A -> json -> result A)
    (key key' : jstring) (x x' : json) (ms1 ms2 : list (jstring * json)) (old : A) :
  fieldMatch name key = fieldMatch name key' ->
  (forall o, store o x = store o x') ->
  fieldValue name store old (ms1 ++ (key, x) :: ms2) =
  fieldValue name store old (ms1 ++ (key', x') :: ms2).
Proof.
  intros Hk Hx. revert old. induction ms1 as [|[k v] ms1 IH]; intros old.
  - cbn [app fieldValue]. rewrite Hk, Hx. reflexivity.
  - cbn [app fieldValue]. destruct (fieldMatch name k); [|apply IH].
    destruct (store old v) as [y|e]; [apply IH|reflexivity].
Qed.

Lemma handler_sameData (l : Logger) (w : ResponseWriter) (r r' : Request)
    (kd : jstring) (da db : list (jstring * json)) (ms1 ms2 : list (jstring * json)) :
  Decode (Body r) = Ok (JObj (ms1 ++ (kd, JObj da) :: ms2)) ->
  Decode (Body r') = Ok (JObj (ms1 ++ (kd, JObj db) :: ms2)) ->
  sameMembers dataNames da db ->
  HandleDynamicAPI l w r = HandleDynamicAPI l w r'.
Proof.
  intros Hd Hd' Hs. apply (handler_same_Unmarshal l w r r' _ _ Hd Hd');
    unfold Unmarshal, storeStruct.
  - unfold eventIdentfier.members.
    rewrite (fieldValue_replace "event" storeString kd kd (JObj da) (JObj db));
      [reflexivity|reflexivity|reflexivity].
  - unfold paymentPending.members.
    rewrite (fieldValue_replace "event" storeString kd kd (JObj da) (JObj db));
      [|reflexivity|reflexivity].
    rewrite (fieldValue_replace "data" (storeStruct paymentPending.dataMembers)
               kd kd (JObj da) (JObj db)); [reflexivity|reflexivity|].
    intros o. cbn [storeStruct]. apply pending_dataMembers_ext, Hs.
  - unfold paymentSuccessful.members.
    rewrite (fieldValue_replace "event" storeString kd kd (JObj da) (JObj db));
      [|reflexivity|reflexivity].
    rewrite (fieldValue_replace "data" (storeStruct paymentSuccessful.dataMembers)
               kd kd (JObj da) (JObj db)); [reflexivity|reflexivity|].
    intros o. cbn [storeStruct]. apply successful_dataMembers_ext, Hs.
Qed.

End Extensionality.

(** X7.  A top-level member whose name names neither the event field
    nor the data field (names being matched exactly or without regard to
    case) is ignored, whatever it holds and wherever it stands: the
    handler does with the payload what it does with the payload without
    that member. *)
Theorem undeclared_member_ignored `{Platform} (l : Logger) (w : ResponseWriter)
    (r r' : Request) (key : jstring) (x : json) (ms1 ms2 : list (jstring * json)) :
  Decode (Body r) = Ok (JObj (ms1 ++ (key, x) :: ms2)) ->
  Decode (Body r') = Ok (JObj (ms1 ++ ms2)) ->
  declaredIn topNames key = false ->
  HandleDynamicAPI l w r = HandleDynamicAPI l w r'.
Proof.
  intros Hd Hd' Hk. apply (handler_sameMembers l w r r' _ _ Hd Hd').
  apply sameMembers_undeclared, Hk.
Qed.

Lemma undeclared_member_ignored_witness :
  HandleDynamicAPI (H := demoPlatform) [] (newResponseWriter false)
    (post "{'event':'paymentrequest.pending','extra':[1,2],'data':{'amount':7}}")
  = HandleDynamicAPI (H := demoPlatform) [] (newResponseWriter false)
      (post "{'event':'paymentrequest.pending','data':{'amount':7}}").
Proof.
  apply (undeclared_member_ignored (H := demoPlatform) [] (newResponseWriter false)
           (post "{'event':'paymentrequest.pending','extra':[1,2],'data':{'amount':7}}")
           (post "{'event':'paymentrequest.pending','data':{'amount':7}}")
           (plain "extra") (JArr [JNum "1"; JNum "2"])
           [(plain "event", JStr (plain "paymentrequest.pending"))]
           [(plain "data", JObj [(plain "amount", JNum "7")])]
           ltac:(vm_compute; reflexivity) ltac:(vm_compute; reflexivity)
           ltac:(vm_compute; reflexivity)).
Defined.

(** X8.  Inside a data object a member whose name names none of the
    twenty declared fields is ignored, whatever it holds and wherever it
    stands: the handler does with the payload what it does with the
    payload whose data object is without that member. *)
Theorem undeclared_data_member_ignored `{Platform} (l : Logger) (w : ResponseWriter)
    (r r' : Request) (kd key : jstring) (x : json)
    (d1 d2 ms1 ms2 : list (jstring * json)) :
  Decode (Body r) = Ok (JObj (ms1 ++ (kd, JObj (d1 ++ (key, x) :: d2)) :: ms2)) ->
  Decode (Body r') = Ok (JObj (ms1 ++ (kd, JObj (d1 ++ d2)) :: ms2)) ->
  declaredIn dataNames key = false ->
  HandleDynamicAPI l w r = HandleDynamicAPI l w r'.
Proof.
  intros Hd Hd' Hk. apply (handler_sameData l w r r' kd _ _ ms1 ms2 Hd Hd').
  apply sameMembers_undeclared, Hk.
Qed.

Lemma undeclared_data_member_ignored_witness :
  HandleDynamicAPI (H := demoPlatform) [] (newResponseWriter false)
    (post "{'event':'paymentrequest.pending','data':{'note':'x','amount':7}}")
  = HandleDynamicAPI (H := demoPlatform) [] (newResponseWriter false)
      (post "{'event':'paymentrequest.pending','data':{'amount':7}}").
Proof.
  apply (undeclared_data_member_ignored (H := demoPlatform) [] (newResponseWriter false)
           (post "{'event':'paymentrequest.pending','data':{'note':'x','amount':7}}")
           (post "{'event':'paymentrequest.pending','data':{'amount':7}}")
           (plain "data") (plain "note") (JStr (plain "x"))
           [] [(plain "amount", JNum "7")]
           [(plain "event", JStr (plain "paymentrequest.pending"))] []
           ltac:(vm_compute; reflexivity) ltac:(vm_compute; reflexivity)
           ltac:(vm_compute; reflexivity)).
Defined.

(** ** Bodies written from text *)

(** Decides the tests on closed bytes that stand in the goal. *)
Ltac closed_tests :=
  repeat match goal with
  | |- context [if ?b then _ else _] =>
      let v := eval vm_compute in b in
      first [constr_eq v true | constr_eq v false];
      change b with v; cbv iota
  end.

(** Computes the values of the members that name a field, the names of
    the members being closed. *)
Ltac member_values :=
  rewrite ?fieldValue_storeAll;
  repeat match goal with
  | |- context [memberValues ?n ?ms] =>
      let r := eval vm_compute in (memberValues n ms) in
      change (memberValues n ms) with r
  end;
  cbv [storeAll mbind result_bind storeString storeInt storeBool storeStruct].

(** The scanner on the tokens of a body, and the integer of a decimal
    literal. *)
Module ScannerTokens.
Import Scanner ScannerFacts.

Lemma scanString_plain (s rest : string) :
  plainText s = true ->
  scanString (s +:+ String dquote rest) = Some (plain s, rest).
Proof.
  induction s as [|c s IH].
  - intros _. rewrite append_Empty. reflexivity.
  - cbn [plainText]. rewrite !andb_true_iff, !negb_true_iff.
    intros [[[[Hlo Hhi] Hq] Hb] Hs]. rewrite append_String. cbn [scanString plain].
    rewrite Hq, Hb.
    replace (code c <? 32) with false by (symmetry; apply Z.ltb_ge, Z.leb_le, Hlo).
    rewrite (IH Hs). reflexivity.
Qed.

Lemma unquote_plain (s : string) : plainText s = true -> unquote (plain s) = s.
Proof.
  unfold unquote. induction s as [|c s IH]; [reflexivity|].
  cbn [plainText]. rewrite !andb_true_iff. intros [[[[Hlo Hhi] Hq] Hb] Hs].
  cbn [plain unquoteFrom]. change 0x80 with 128. rewrite Hhi, (IH Hs). reflexivity.
Qed.

Lemma expect_here (c : ascii) (rest : string) :
  isSpace c = false -> expect c (String c rest) = Some rest.
Proof.
  intros Hc. unfold expect. cbn [skipSpace]. rewrite Hc, Ascii.eqb_refl. reflexivity.
Qed.

Lemma expect_other (c c' : ascii) (rest : string) :
  isSpace c' = false -> (c' =? c)%char = false -> expect c (String c' rest) = None.
Proof.
  intros Hc Hne. unfold expect. cbn [skipSpace]. rewrite Hc, Hne. reflexivity.
Qed.

Lemma scanValue_quoted (f d : nat) (s rest : string) :
  plainText s = true ->
  scanValue (S f) d (quoted s rest) = Some (JStr (plain s), rest).
Proof.
  intros Hs. unfold quoted. cbn [scanValue skipSpace]. closed_tests.
  rewrite (scanString_plain s rest Hs). reflexivity.
Qed.

Lemma scanValue_object (f d : nat) (key r : string) ms (rest : string) :
  (d <? maxNestingDepth)%nat = true ->
  scanMembers f (S d) (member key r) = Some (ms, rest) ->
  scanValue (S f) d (String "{" (member key r)) = Some (JObj ms, rest).
Proof.
  intros Hd Hm. cbn [scanValue skipSpace]. closed_tests. rewrite Hd.
  unfold member, quoted in *. rewrite expect_other by reflexivity.
  rewrite Hm. reflexivity.
Qed.

Lemma scanMembers_last (f d : nat) (key r : string) (v : json) (rest : string) :
  plainText key = true ->
  scanValue f d r = Some (v, String "}" rest) ->
  scanMembers (S f) d (member key r) = Some ([(plain key, v)], rest).
Proof.
  intros Hk Hv. unfold member, quoted. cbn [scanMembers].
  rewrite expect_here by reflexivity. rewrite (scanString_plain key _ Hk).
  rewrite expect_here by reflexivity. rewrite Hv.
  rewrite expect_other by reflexivity. rewrite expect_here by reflexivity. reflexivity.
Qed.

Lemma scanMembers_more (f d : nat) (key r : string) (v : json) (r' : string)
    ms (rest : string) :
  plainText key = true ->
  scanValue f d r = Some (v, String "," r') ->
  scanMembers f d r' = Some (ms, rest) ->
  scanMembers (S f) d (member key r) = Some ((plain key, v) :: ms, rest).
Proof.
  intros Hk Hv Hm. unfold member, quoted. cbn [scanMembers].
  rewrite expect_here by reflexivity. rewrite (scanString_plain key _ Hk).
  rewrite expect_here by reflexivity. rewrite Hv.
  rewrite expect_here by reflexivity. rewrite Hm. reflexivity.
Qed.

Lemma successBody_scan (s : string) :
  plainText s = true ->
  readValue (successBody s) =
    Some (JObj [(plain "event", JStr (plain "paymentrequest.success"));
                (plain "data", JObj [(plain "description", JStr (plain s))])],
          EmptyString).
Proof.
  intros Hs. apply (readValue_complete 6).
  change (successBody s) with
    (String "{" (member "event" (quoted "paymentrequest.success" (String ","
       (member "data" (String "{" (member "description" (quoted s "}}")))))))).
  apply scanValue_object; [reflexivity|].
  eapply scanMembers_more; [reflexivity|apply scanValue_quoted; reflexivity|].
  eapply scanMembers_last; [reflexivity|].
  apply scanValue_object; [reflexivity|].
  eapply scanMembers_last; [reflexivity|].
  apply scanValue_quoted. exact Hs.
Qed.

Lemma append_nil_r (s : string) : s +:+ EmptyString = s.
Proof. induction s as [|c s IH]; [reflexivity|]. rewrite append_String, IH. reflexivity. Qed.

Lemma scanDigits_all (ds rest : string) :
  allDigits ds = true ->
  scanDigits (ds +:+ String "}" rest) = (ds, String "}" rest).
Proof.
  induction ds as [|c ds IH].
  - intros _. rewrite append_Empty. reflexivity.
  - cbn [allDigits]. rewrite andb_true_iff. intros [Hc Hds].
    rewrite append_String. cbn [scanDigits]. rewrite Hc, (IH Hds). reflexivity.
Qed.

Lemma eqb_digit_other (c x : ascii) :
  isDigit c = true -> isDigit x = false -> (c =? x)%char = false.
Proof.
  intros Hc Hx. destruct (c =? x)%char eqn:E; [|reflexivity].
  apply Ascii.eqb_eq in E. subst. congruence.
Qed.

Lemma isDigit19_isDigit (c : ascii) : isDigit19 c = true -> isDigit c = true.
Proof.
  unfold isDigit19, isDigit, inRange. rewrite !andb_true_iff, !Z.leb_le. lia.
Qed.

Lemma isDigit_not_space (c : ascii) : isDigit c = true -> isSpace c = false.
Proof.
  unfold isDigit, inRange, isSpace. rewrite andb_true_iff, !Z.leb_le. intros [Hlo Hhi].
  rewrite !orb_false_iff, !Z.eqb_neq. lia.
Qed.

Lemma decimalLiteral_head (c : ascii) (r : string) :
  decimalLiteral (String c r) = true -> isDigit c = true.
Proof.
  cbn [decimalLiteral]. destruct (c =? "0")%char eqn:E.
  - apply Ascii.eqb_eq in E. subst. reflexivity.
  - rewrite andb_true_iff. intros [H19 _]. apply isDigit19_isDigit, H19.
Qed.

Lemma decimalLiteral_allDigits (ds : string) :
  decimalLiteral ds = true -> allDigits ds = true.
Proof.
  destruct ds as [|c r]; [discriminate|]. intros Hd.
  pose proof (decimalLiteral_head _ _ Hd) as Hc. cbn [allDigits]. rewrite Hc.
  cbn [decimalLiteral] in Hd. destruct (c =? "0")%char.
  - destruct r; [reflexivity|discriminate].
  - apply andb_true_iff in Hd as [_ Hr]. exact Hr.
Qed.

Lemma scanNumber_decimal (ds rest : string) :
  decimalLiteral ds = true ->
  scanNumber (ds +:+ String "}" rest) = Some (ds, String "}" rest).
Proof.
  intros Hd. destruct ds as [|c r]; [discriminate|].
  pose proof (decimalLiteral_head _ _ Hd) as Hc.
  rewrite append_String. unfold scanNumber.
  rewrite (eqb_digit_other c "-" Hc eq_refl). unfold scanUnsigned.
  cbn [decimalLiteral] in Hd. destruct (c =? "0")%char.
  - destruct r; [|discriminate]. rewrite append_Empty. reflexivity.
  - apply andb_true_iff in Hd as [H19 Hr]. rewrite H19.
    rewrite (scanDigits_all r rest Hr). unfold scanFrac, scanExp.
    closed_tests. rewrite ?append_Empty, ?append_nil_r. reflexivity.
Qed.

Lemma scanValue_decimal (f d : nat) (ds rest : string) :
  decimalLiteral ds = true ->
  scanValue (S f) d (ds +:+ String "}" rest) = Some (JNum ds, String "}" rest).
Proof.
  intros Hd. pose proof (scanNumber_decimal ds rest Hd) as Hn.
  destruct ds as [|c r]; [discriminate|].
  pose proof (decimalLiteral_head _ _ Hd) as Hc.
  rewrite append_String in *. cbn [scanValue skipSpace].
  rewrite (isDigit_not_space c Hc).
  rewrite (eqb_digit_other c "{" Hc eq_refl), (eqb_digit_other c "[" Hc eq_refl).
  rewrite (eqb_digit_other c dquote Hc eq_refl), (eqb_digit_other c "t" Hc eq_refl).
  rewrite (eqb_digit_other c "f" Hc eq_refl), (eqb_digit_other c "n" Hc eq_refl).
  rewrite Hn. reflexivity.
Qed.

Lemma pendingBody_scan (ds : string) :
  decimalLiteral ds = true ->
  readValue (pendingBody ds) =
    Some (JObj [(plain "event", JStr (plain "paymentrequest.pending"));
                (plain "data", JObj [(plain "amount", JNum ds)])],
          EmptyString).
Proof.
  intros Hs. apply (readValue_complete 6).
  change (pendingBody ds) with
    (String "{" (member "event" (quoted "paymentrequest.pending" (String ","
       (member "data" (String "{" (member "amount" (ds +:+ "}}")))))))).
  apply scanValue_object; [reflexivity|].
  eapply scanMembers_more; [reflexivity|apply scanValue_quoted; reflexivity|].
  eapply scanMembers_last; [reflexivity|].
  apply scanValue_object; [reflexivity|].
  eapply scanMembers_last; [reflexivity|].
  apply scanValue_decimal. exact Hs.
Qed.

Lemma digitsValue_decimal (ds : string) (acc : Z) :
  allDigits ds = true -> digitsValue acc ds = Some (decimalValue acc ds).
Proof.
  revert acc. induction ds as [|c ds IH]; intros acc; [reflexivity|].
  cbn [allDigits]. rewrite andb_true_iff. intros [Hc Hds].
  cbn [digitsValue decimalValue]. rewrite Hc. apply IH, Hds.
Qed.

Lemma decimalValue_nonneg (ds : string) (acc : Z) :
  allDigits ds = true -> 0 <= acc -> 0 <= decimalValue acc ds.
Proof.
  revert acc. induction ds as [|c ds IH]; intros acc; [intros _ Ha; exact Ha|].
  cbn [allDigits]. rewrite andb_true_iff. intros [Hc Hds] Ha.
  cbn [decimalValue]. apply IH; [exact Hds|].
  unfold isDigit, inRange in Hc. rewrite andb_true_iff, !Z.leb_le in Hc. lia.
Qed.

Lemma parseInt_decimal (ds : string) :
  decimalLiteral ds = true ->
  parseInt ds =
    if decimalValue 0 ds <? 2 ^ 63 then Some (decimalValue 0 ds) else None.
Proof.
  intros Hd. pose proof (decimalLiteral_allDigits ds Hd) as Hall.
  pose proof (decimalValue_nonneg ds 0 Hall ltac:(lia)) as Hnn.
  destruct ds as [|c r]; [discriminate|].
  pose proof (decimalLiteral_head _ _ Hd) as Hc.
  unfold parseInt.
  rewrite (eqb_digit_other c "-" Hc eq_refl), (eqb_digit_other c "+" Hc eq_refl).
  rewrite (digitsValue_decimal _ 0 Hall).
  change (2 ^ (intSize - 1)) with (2 ^ 63).
  replace (- 2 ^ 63 <=? decimalValue 0 (String c r)) with true
    by (symmetry; apply Z.leb_le; lia).
  reflexivity.
Qed.

End ScannerTokens.

Section Echo.
Context `{Platform}.

Lemma successBody_Unmarshal (items : jstring) :
  Unmarshal paymentSuccessful.members
    (JObj [(plain "event", JStr (plain "paymentrequest.success"));
           (plain "data", JObj [(plain "description", JStr items)])])
    paymentSuccessful.zero =
  Ok (paymentSuccessful.mk "paymentrequest.success"
        (paymentSuccessful.mkData 0 EmptyString 0 EmptyString JNull false JNull
           (unquote items) JNull [] [] EmptyString EmptyString false zeroTime JNull []
           EmptyString 0 zeroTime)).
Proof.
  unfold Unmarshal, storeStruct, paymentSuccessful.members. member_values.
  unfold paymentSuccessful.dataMembers. member_values. reflexivity.
Qed.

(** X9.  The description makes the round trip through the handler: for
    every description of plain ASCII text (bytes from the space on, no
    quote, no backslash), a successful payment event that carries it in
    data.description and nothing else is answered with status 200, the
    JSON content type and one document, encoded from the map of the
    event name and of that very text, and the ID and amount logged are
    0. *)
Theorem description_round_trip (l : Logger) (s : string) :
  plainText s = true ->
  HandleDynamicAPI l (newResponseWriter false) (hook (successBody s)) =
    (l ++ [connected; hookRecord Successful;
           mkRecord INFO "success response data unmarshalled successfully"
             [("success ID", AInt 0); ("success amount", AInt 0)]],
     mkResponseWriter jsonHeader (Some 200)
       [ {[ "event type" := VString "paymentrequest.success";
            "description" := VString s ]} ] false).
Proof.
  intros Hs.
  assert (Hd : Decode (Body (hook (successBody s))) =
               Ok (JObj [(plain "event", JStr (plain "paymentrequest.success"));
                         (plain "data", JObj [(plain "description", JStr (plain s))])])).
  { unfold Decode. cbn [Body hook]. rewrite (ScannerTokens.successBody_scan s Hs). reflexivity. }
  rewrite (handle_successful l _ _ _ Hd (successBody_Unmarshal (plain s)) eq_refl).
  cbn [paymentSuccessful.Event paymentSuccessful.Data paymentSuccessful.Description
       paymentSuccessful.ID paymentSuccessful.Amount].
  rewrite (ScannerTokens.unquote_plain s Hs). reflexivity.
Qed.

End Echo.

Section Amounts.
Context `{Platform}.

Lemma pendingBody_Unmarshal (ds : string) :
  Unmarshal paymentPending.members
    (JObj [(plain "event", JStr (plain "paymentrequest.pending"));
           (plain "data", JObj [(plain "amount", JNum ds)])])
    paymentPending.zero =
  match parseInt ds with
  | Some n =>
      Ok (paymentPending.mk "paymentrequest.pending"
            (paymentPending.mkData 0 EmptyString n EmptyString JNull false JNull
               EmptyString JNull [] [] EmptyString EmptyString false JNull JNull []
               EmptyString 0 zeroTime))
  | None => Err UnmarshalError
  end.
Proof.
  unfold Unmarshal, storeStruct, paymentPending.members. member_values.
  unfold paymentPending.dataMembers. member_values.
  destruct (parseInt ds); reflexivity.
Qed.

Lemma pendingBody_envelope (ds : string) :
  Unmarshal eventIdentfier.members
    (JObj [(plain "event", JStr (plain "paymentrequest.pending"));
           (plain "data", JObj [(plain "amount", JNum ds)])])
    eventIdentfier.zero = Ok (eventIdentfier.mk "paymentrequest.pending").
Proof.
  unfold Unmarshal, storeStruct, eventIdentfier.members. member_values. reflexivity.
Qed.

(** X10.  The bounds of the amount: a pending payment event whose
    data.amount is a decimal literal (0, or digits that do not start with
    0) is answered with that integer as the amount when it is below 2^63;
    from 2^63 on it does not fit the int field, the handler logs the
    decoding error and leaves the writer as it was. *)
Theorem amount_within_int64 (l : Logger) (ds : string) :
  decimalLiteral ds = true ->
  HandleDynamicAPI l (newResponseWriter false) (hook (pendingBody ds)) =
    if decimalValue 0 ds <? 2 ^ 63 then
      (l ++ [connected; hookRecord Pending;
             mkRecord INFO "pending response data unmarshalled successfully"
               [("pending ID", AInt 0); ("pending amount", AInt (decimalValue 0 ds))]],
       mkResponseWriter jsonHeader (Some 200)
         [ {[ "event type" := VString "paymentrequest.pending";
              "amount" := VInt (decimalValue 0 ds) ]} ] false)
    else
      (l ++ [connected; hookRecord Pending;
             mkRecord ERROR "error marshalling pending payment data"
               [("error context", AError UnmarshalError)]],
       newResponseWriter false).
Proof.
  intros Hd.
  assert (Hdec : Decode (Body (hook (pendingBody ds))) =
               Ok (JObj [(plain "event", JStr (plain "paymentrequest.pending"));
                         (plain "data", JObj [(plain "amount", JNum ds)])])).
  { unfold Decode. cbn [Body hook]. rewrite (ScannerTokens.pendingBody_scan ds Hd). reflexivity. }
  pose proof (pendingBody_Unmarshal ds) as Hp. rewrite (ScannerTokens.parseInt_decimal ds Hd) in Hp.
  destruct (decimalValue 0 ds <? 2 ^ 63).
  - rewrite (handle_pending l _ _ _ Hdec Hp eq_refl). reflexivity.
  - unfold HandleDynamicAPI. rewrite Hdec, pendingBody_envelope, Hp.
    unfold Info, Error, connected, hookRecord.
    cbv [eventIdentfier.Event kindName hookMsg]. cbn [String.eqb Ascii.eqb Bool.eqb].
    rewrite <- !app_assoc. reflexivity.
Qed.

End Amounts.

Lemma description_round_trip_witness :
  HandleDynamicAPI (H := demoPlatform) [] (newResponseWriter false)
    (hook (successBody "Invoice #2")) =
    ([connected (H := demoPlatform); hookRecord Successful;
      mkRecord INFO "success response data unmarshalled successfully"
        [("success ID", AInt 0); ("success amount", AInt 0)]],
     mkResponseWriter jsonHeader (Some 200)
       [ {[ "event type" := VString "paymentrequest.success";
            "description" := VString "Invoice #2" ]} ] false).
Proof.
  apply (description_round_trip (H := demoPlatform) [] "Invoice #2" ltac:(reflexivity)).
Defined.

Lemma amount_within_int64_witness :
  HandleDynamicAPI (H := demoPlatform) [] (newResponseWriter false)
    (hook (pendingBody "5000")) =
    ([connected (H := demoPlatform); hookRecord Pending;
      mkRecord INFO "pending response data unmarshalled successfully"
        [("pending ID", AInt 0); ("pending amount", AInt 5000)]],
     mkResponseWriter jsonHeader (Some 200)
       [ {[ "event type" := VString "paymentrequest.pending";
            "amount" := VInt 5000 ]} ] false).
Proof.
  exact (amount_within_int64 (H := demoPlatform) [] "5000" ltac:(reflexivity)).
Defined.
